(** * git-browse: the revision cursor, the blame cache and the line mapper

    A shallow embedding of [gitbrowse/git.py].  The class [GitFileHistory]
    becomes a record that is passed through its methods; the external
    programs ([git], [diff]) become the fields of an environment record and
    every call to one of them is written to a log, so that "this call asks
    nothing of the outside" is the statement that its log is empty. *)

From Stdlib Require Import ZArith String Ascii List Lia Bool.
From stdpp Require Import base option list gmap strings.

Local Open Scope string_scope.
Local Open Scope list_scope.
Local Open Scope Z_scope.

(** ** The pieces of Python's [str] that the module uses *)

Module Py.

Definition LF : ascii := "010"%char.
Definition TAB : ascii := "009"%char.
Definition QUOTE : ascii := "034"%char.

(** The characters [str.strip()] removes: blank, [\t], [\n], [\v], [\f], [\r]. *)
Definition isspace (c : ascii) : bool :=
  let n := nat_of_ascii c in
  (Nat.eqb n 32 || (Nat.leb 9 n && Nat.leb n 13))%bool.

Fixpoint lstrip (s : string) : string :=
  match s with
  | String c s' => if isspace c then lstrip s' else s
  | EmptyString => EmptyString
  end.

Definition rstrip (s : string) : string := String.rev (lstrip (String.rev s)).

Definition strip (s : string) : string := rstrip (lstrip s).

(** [s.startswith(c)] for a one-character [c]. *)
Definition startswith (c : ascii) (s : string) : bool :=
  match s with
  | String d _ => Ascii.eqb d c
  | EmptyString => false
  end.

(** [s[1:]] *)
Definition tail (s : string) : string :=
  match s with
  | String _ s' => s'
  | EmptyString => EmptyString
  end.

(** [s.split(sep)] and [s.split(sep, maxsplit)] for a non-empty [sep]:
    the text is cut at the occurrences of [sep] met from the left, and at
    most [maxsplit] times.  [skip] counts the characters of a separator
    that was just matched and is still being stepped over, [cur] is the
    piece read so far. *)
Fixpoint split_go (sep : string) (maxsplit : option nat) (skip : nat)
    (cur : string) (s : string) : list string :=
  match s with
  | EmptyString => [cur]
  | String c s' =>
      match skip with
      | S k => split_go sep maxsplit k cur s'
      | O =>
          match maxsplit with
          | Some O => split_go sep maxsplit O (cur +:+ String c EmptyString) s'
          | _ =>
              if String.prefix sep s
              then cur :: split_go sep (Nat.pred <$> maxsplit)
                            (Nat.pred (String.length sep)) EmptyString s'
              else split_go sep maxsplit O (cur +:+ String c EmptyString) s'
          end
      end
  end.

Definition split (sep : string) (s : string) : list string :=
  split_go sep None O EmptyString s.

Definition splitn (sep : string) (maxsplit : nat) (s : string) : list string :=
  split_go sep (Some maxsplit) O EmptyString s.

(** The lines of a pipe as [readline] and [readlines] hand them out: each
    keeps its terminating newline, the last one may lack it, and none is
    empty. *)
Fixpoint readlines_go (cur : string) (s : string) : list string :=
  match s with
  | EmptyString => if String.eqb cur EmptyString then [] else [cur]
  | String c s' =>
      if Ascii.eqb c LF
      then (cur +:+ String c EmptyString) :: readlines_go EmptyString s'
      else readlines_go (cur +:+ String c EmptyString) s'
  end.

Definition readlines (s : string) : list string := readlines_go EmptyString s.

(** [int(s)] on a [str], base ten: blanks around the literal are dropped,
    one sign is allowed, at least one digit is needed.  [None] is
    [ValueError]. *)
Definition digit (c : ascii) : option Z :=
  let n := nat_of_ascii c in
  if (Nat.leb 48 n && Nat.leb n 57)%bool then Some (Z.of_nat n - 48) else None.

Fixpoint digits (acc : Z) (s : string) : option Z :=
  match s with
  | EmptyString => Some acc
  | String c s' =>
      match digit c with
      | Some d => digits (10 * acc + d) s'
      | None => None
      end
  end.

Definition unsigned (s : string) : option Z :=
  match s with
  | EmptyString => None
  | _ => digits 0 s
  end.

Definition int (s : string) : option Z :=
  match strip s with
  | String "-" s' => Z.opp <$> unsigned s'
  | String "+" s' => unsigned s'
  | s' => unsigned s'
  end.

(** [l[i]] with Python's negative indices; [None] is [IndexError]. *)
Definition getitem {A} (l : list A) (i : Z) : option A :=
  let j := if i <? 0 then i + Z.of_nat (length l) else i in
  if j <? 0 then None else l !! Z.to_nat j.

End Py.

(** The newline and the tab as one-character strings. *)
Definition nl : string := String Py.LF "".
Definition tab : string := String Py.TAB "".

(** ** Data *)

Module GitCommit.
(** Stores simple information about a single Git commit. *)
Record t := mk { sha : string; author : string; message : string }.
End GitCommit.

Module GitBlameLine.
(** Stores the blame output for a single line of a file.  The two line
    numbers stay the strings that were cut out of the header. *)
Record t := mk {
  sha : string;
  line : string;
  current : bool;
  original_line : string;
  final_line : string }.
End GitBlameLine.

(** A line mapping is a [dict] from line numbers to line numbers or [None]. *)
Abbreviation linemap := (gmap Z (option Z)).

Record GitFileHistory := mkHistory {
  path : string;
  commits : list GitCommit.t;
  _index : Z;
  _blame : option (list GitBlameLine.t);
  _line_mappings : gmap string linemap }.

Definition set_index (i : Z) (self : GitFileHistory) : GitFileHistory :=
  mkHistory (path self) (commits self) i (_blame self) (_line_mappings self).

Definition set_blame (b : option (list GitBlameLine.t)) (self : GitFileHistory)
    : GitFileHistory :=
  mkHistory (path self) (commits self) (_index self) b (_line_mappings self).

Definition set_line_mappings (m : gmap string linemap) (self : GitFileHistory)
    : GitFileHistory :=
  mkHistory (path self) (commits self) (_index self) (_blame self) m.

(** ** Effects: what is asked of the outside, and how a call can end *)

(** The external commands, one constructor per command line of the source. *)
Inductive command :=
| git_rev_parse (rev : string)
| git_ls_files (path : string)
| git_log (start_commit path : string)
| git_blame (path sha : string)
| git_show (rev path : string)
| diff_fds (start finish path : string).

(** What the commands answer.  The answers are functions of the command
    line: committed content does not change. *)
Record Env := mkEnv {
  rev_parse_status : string -> Z;
  ls_files_out : string -> string;
  log_out : string -> string -> string;
  blame_out : string -> string -> string;
  show_out : string -> string -> string;
  diff_out : string -> string -> string * string }.

Inductive exn :=
| ValueError (msg : option string)
| TypeError
| IndexError
| AssertionError.

(** A call returns, raises, or never comes back. *)
Inductive outcome (A : Type) :=
| Ret (a : A)
| Raise (e : exn)
| Diverge.
Arguments Ret {A} a.
Arguments Raise {A} e.
Arguments Diverge {A}.

(** A computation is its outcome together with the commands it ran, in order. *)
Definition M (A : Type) : Type := outcome A * list command.

Definition ret {A} (a : A) : M A := (Ret a, []).
Definition raise {A} (e : exn) : M A := (Raise e, []).
Definition lift {A} (o : outcome A) : M A := (o, []).
Definition run (c : command) : M unit := (Ret tt, [c]).

Definition bind {A B} (m : M A) (k : A -> M B) : M B :=
  match m with
  | (Ret a, l) => let '(r, l') := k a in (r, l ++ l')
  | (Raise e, l) => (Raise e, l)
  | (Diverge, l) => (Diverge, l)
  end.

Definition obind {A B} (o : outcome A) (k : A -> outcome B) : outcome B :=
  match o with
  | Ret a => k a
  | Raise e => Raise e
  | Diverge => Diverge
  end.

Notation "'do' x <- m ; k" := (bind m (fun x => k))
  (at level 10, x name, m at level 100, k at level 200).
Notation "'exec' c ; k" := (bind (run c) (fun _ => k))
  (at level 10, c at level 100, k at level 200).

(** ** The cursor *)

(** Moves to the next commit that touched this file, returning [False] if
    we're already at the last commit that touched the file. *)
Definition next (self : GitFileHistory) : bool * GitFileHistory :=
  if _index self <=? 0 then (false, self)
  else (true, set_blame None (set_index (_index self - 1) self)).

(** Moves to the previous commit that touched this file, returning [False]
    if we're already at the first commit that touched the file. *)
Definition prev (self : GitFileHistory) : bool * GitFileHistory :=
  if _index self >=? Z.of_nat (length (commits self)) - 1 then (false, self)
  else (true, set_blame None (set_index (_index self + 1) self)).

Definition current_commit (self : GitFileHistory) : M GitCommit.t :=
  match Py.getitem (commits self) (_index self) with
  | Some c => ret c
  | None => raise IndexError
  end.

(** The two cursor calls. *)
Inductive step := Next | Prev.

Definition do_step (s : step) (self : GitFileHistory) : bool * GitFileHistory :=
  match s with
  | Next => next self
  | Prev => prev self
  end.

(** ** Blame *)

(** The [while True] loop of [blame] over the lines still in the pipe.
    [readline] on an exhausted pipe gives the empty string: the outer loop
    leaves on it, the inner one spins on it, since the empty string does not
    start with a tab. *)
Fixpoint blame_loop (current_sha : string) (lines : list GitBlameLine.t)
    (p : list string) : outcome (list GitBlameLine.t) :=
  match p with
  | [] => Ret lines
  | header :: p1 =>
      if String.eqb header "" then Ret lines else
      match take 3 (Py.split " " header) with
      | [sha; original_line; final_line] =>
          (fix skip (q : list string) : outcome (list GitBlameLine.t) :=
             match q with
             | [] => Diverge
             | line :: q' =>
                 if Py.startswith Py.TAB line
                 then blame_loop current_sha
                        (lines ++ [GitBlameLine.mk sha (Py.tail line)
                                     (String.eqb sha current_sha)
                                     original_line final_line])
                        q'
                 else skip q'
             end) p1
      | _ => Raise (ValueError None)
      end
  end.

(** ** The line mapper: the pure part *)

(** The four locals of [_build_line_mappings] that its loops update. *)
Record cursors := mkCursors {
  forward : linemap;
  backward : linemap;
  start_ln : Z;
  finish_ln : Z }.

Definition cursors0 : cursors := mkCursors ∅ ∅ 0 0.

(** unchanged lines, advance both sides *)
Definition unchanged_line (c : cursors) : cursors :=
  mkCursors (<[start_ln c := Some (finish_ln c)]> (forward c))
            (<[finish_ln c := Some (start_ln c)]> (backward c))
            (start_ln c + 1) (finish_ln c + 1).

(** old/deleted lines, advance left side as they only exist there *)
Definition old_line (c : cursors) : cursors :=
  mkCursors (<[start_ln c := None]> (forward c)) (backward c)
            (start_ln c + 1) (finish_ln c).

(** new/added lines, advance right side as they only exist there *)
Definition new_line (c : cursors) : cursors :=
  mkCursors (forward c) (<[finish_ln c := None]> (backward c))
            (start_ln c) (finish_ln c + 1).

(** The [if]/[elif]/[elif] on [typ], each arm a [for i in range(num_lines)];
    a [typ] that is none of the three letters changes nothing. *)
Definition group (typ : string) (num_lines : Z) (c : cursors) : cursors :=
  if String.eqb typ "u" then Nat.iter (Z.to_nat num_lines) unchanged_line c
  else if String.eqb typ "o" then Nat.iter (Z.to_nat num_lines) old_line c
  else if String.eqb typ "n" then Nat.iter (Z.to_nat num_lines) new_line c
  else c.

(** [typ, num_lines_str = line.split(' ')] after the assertion on the
    length, then [int(num_lines_str)]. *)
Definition parse_group (line : string) : outcome (string * Z) :=
  if Nat.ltb (String.length line) 3 then Raise AssertionError else
  match Py.split " " line with
  | [typ; num_lines_str] =>
      match Py.int num_lines_str with
      | Some num_lines => Ret (typ, num_lines)
      | None => Raise (ValueError None)
      end
  | _ => Raise (ValueError None)
  end.

(** [for line in diff_lines] *)
Fixpoint diff_loop (diff_lines : list string) (c : cursors) : outcome cursors :=
  match diff_lines with
  | [] => Ret c
  | line :: rest =>
      obind (parse_group line) (fun g => diff_loop rest (group (fst g) (snd g) c))
  end.

(** The same loop over groups that are already parsed. *)
Definition groups_loop (groups : list (string * Z)) (c : cursors) : cursors :=
  fold_left (fun c g => group (fst g) (snd g) c) groups c.

(** [diff_lines = [] if out == '' else out.strip().split('\n')] *)
Definition diff_lines_of (out : string) : list string :=
  if String.eqb out "" then [] else Py.split (String Py.LF "") (Py.strip out).

(** [while start_ln <= start_len and finish_ln <= finish_len]: the loop
    test is evaluated at each turn; [fuel] bounds the number of turns. *)
Fixpoint stretch_loop (fuel : nat) (start_len finish_len : Z) (c : cursors) : cursors :=
  match fuel with
  | O => c
  | S fuel' =>
      if (start_ln c <=? start_len) && (finish_ln c <=? finish_len)
      then stretch_loop fuel' start_len finish_len (unchanged_line c)
      else c
  end.

(** The loop leaves once [start_ln] has passed [start_len], so this many
    turns are enough ([stretch_exits] below). *)
Definition stretch (start_len finish_len : Z) (c : cursors) : cursors :=
  stretch_loop (Z.to_nat (start_len - start_ln c + 1)) start_len finish_len c.

(** The key under which [line_mapping] files a mapping. *)
Definition key (start finish : string) : string := start +:+ "/" +:+ finish.

(** An identifier without the separator of the key. *)
Fixpoint slash_free (s : string) : bool :=
  match s with
  | EmptyString => true
  | String c s' => negb (Ascii.eqb c "/") && slash_free s'
  end.

(** ** The methods that talk to the outside *)

Section Engine.

Variable env : Env.

(** Verifies that a revision is valid in the current working directory. *)
Definition verify_revision (rev : string) : M bool :=
  exec git_rev_parse rev;
  ret (rev_parse_status env rev =? 0).

(** Verifies that a given file is tracked by Git. *)
Definition verify_file (path : string) : M bool :=
  exec git_ls_files path;
  ret (0 <? Z.of_nat (length (Py.readlines (ls_files_out env path)))).

(** [GitCommit] applied to the pieces of [c.split('\n', 2)]: three pieces
    or a [TypeError]. *)
Definition make_commit (c : string) : outcome GitCommit.t :=
  match Py.splitn (String Py.LF "") 2 c with
  | [sha; author; message] => Ret (GitCommit.mk sha author message)
  | _ => Raise TypeError
  end.

Fixpoint make_commits (output : list string) : outcome (list GitCommit.t) :=
  match output with
  | [] => Ret []
  | c :: rest =>
      if String.eqb c "" then make_commits rest
      else obind (make_commit c) (fun x =>
           obind (make_commits rest) (fun xs => Ret (x :: xs)))
  end.

Definition invalid_revision (start_commit : string) : exn :=
  ValueError (Some (start_commit +:+ " is not a valid commit, branch, tag, etc.")).

Definition untracked_file (path : string) : exn :=
  ValueError (Some (String Py.QUOTE path +:+ String Py.QUOTE " is not tracked by git")).

(** [GitFileHistory.__init__] *)
Definition init (path start_commit : string) : M GitFileHistory :=
  do valid <- verify_revision start_commit;
  if negb valid then raise (invalid_revision start_commit) else
  do tracked <- verify_file path;
  if negb tracked then raise (untracked_file path) else
  exec git_log start_commit path;
  let output := Py.split (String Py.LF (String Py.LF "")) (log_out env start_commit path) in
  do commits <- lift (make_commits output);
  ret (mkHistory path commits 0 None ∅).

(** Returns blame information for this file at the current commit.
    [if self._blame] is Python's truth test: [None] and the empty list
    both fail it. *)
Definition blame (self : GitFileHistory) : M (list GitBlameLine.t * GitFileHistory) :=
  match _blame self with
  | Some (l :: ls) => ret (l :: ls, self)
  | _ =>
      do c <- current_commit self;
      exec git_blame (path self) (GitCommit.sha c);
      let p := Py.readlines (blame_out env (path self) (GitCommit.sha c)) in
      do lines <- lift (blame_loop (GitCommit.sha c) [] p);
      ret (lines, set_blame (Some lines) self)
  end.

Definition _build_line_mappings (start finish : string) (self : GitFileHistory)
    : M (linemap * linemap) :=
  exec git_show start (path self);
  exec git_show finish (path self);
  exec diff_fds start finish (path self);
  let out_err := diff_out env (show_out env start (path self))
                              (show_out env finish (path self)) in
  if negb (String.eqb (snd out_err) "") then raise AssertionError else
  do c <- lift (diff_loop (diff_lines_of (fst out_err)) cursors0);
  exec git_show start (path self);
  let start_len := Z.of_nat (length (Py.readlines (show_out env start (path self)))) in
  exec git_show finish (path self);
  let finish_len := Z.of_nat (length (Py.readlines (show_out env finish (path self)))) in
  let c' := stretch start_len finish_len c in
  ret (forward c', backward c').

(** Returns a dict that represents how lines have moved between versions
    of a file. *)
Definition line_mapping (start finish : string) (self : GitFileHistory)
    : M (linemap * GitFileHistory) :=
  match _line_mappings self !! key start finish with
  | Some m => ret (m, self)
  | None =>
      do fb <- _build_line_mappings start finish self;
      let cache := <[key finish start := snd fb]>
                     (<[key start finish := fst fb]> (_line_mappings self)) in
      ret (fst fb, set_line_mappings cache self)
  end.

End Engine.

(** ** Vocabulary of the properties *)

(** The cursor invariant of the data model. *)
Definition in_bounds (self : GitFileHistory) : Prop :=
  0 <= _index self < Z.of_nat (length (commits self)).

(** What one cursor call is allowed to do: refuse at its boundary and leave
    the object as it was, or move by exactly one. *)
Definition step_spec (s : step) (before : GitFileHistory)
    (r : bool * GitFileHistory) : Prop :=
  match s with
  | Next =>
      if _index before =? 0
      then r = (false, before)
      else fst r = true /\ _index (snd r) = _index before - 1
           /\ commits (snd r) = commits before
  | Prev =>
      if _index before =? Z.of_nat (length (commits before)) - 1
      then r = (false, before)
      else fst r = true /\ _index (snd r) = _index before + 1
           /\ commits (snd r) = commits before
  end.

(** [P] holds of every call of the sequence, each taken from the object the
    calls before it left. *)
Fixpoint each_step (P : step -> GitFileHistory -> bool * GitFileHistory -> Prop)
    (ss : list step) (self : GitFileHistory) : Prop :=
  match ss with
  | [] => True
  | s :: ss' => P s self (do_step s self) /\ each_step P ss' (snd (do_step s self))
  end.

(** Two maps that undo each other on the entries that are not [None]. *)
Definition inverse_maps (f b : linemap) : Prop :=
  forall i j : Z, f !! i = Some (Some j) <-> b !! j = Some (Some i).

(** The identity on the line numbers [0..n], both ends included, and
    nothing else. *)
Definition identity_upto (n : Z) (m : linemap) : Prop :=
  forall i : Z, m !! i = if (0 <=? i) && (i <=? n) then Some (Some i) else None.

(** What the loops keep true of their four locals: the two maps undo each
    other, and each map is defined below its cursor only. *)
Definition tracked (c : cursors) : Prop :=
  inverse_maps (forward c) (backward c)
  /\ (forall i : Z, is_Some (forward c !! i) -> i < start_ln c)
  /\ (forall j : Z, is_Some (backward c !! j) -> j < finish_ln c).

(** The cursors after [n] lines that are all unchanged: both at [n], both
    maps the identity below [n]. *)
Definition ident_below (n : Z) (c : cursors) : Prop :=
  start_ln c = n /\ finish_ln c = n
  /\ (forall i : Z, forward c !! i
                    = if (0 <=? i) && (i <? n) then Some (Some i) else None)
  /\ (forall i : Z, backward c !! i
                    = if (0 <=? i) && (i <? n) then Some (Some i) else None).

(** The locals of the computation for the swapped pair: the maps and the
    cursors change places, and so do the groups only one side has. *)
Definition mirror (c : cursors) : cursors :=
  mkCursors (backward c) (forward c) (finish_ln c) (start_ln c).

Definition mirror_typ (typ : string) : string :=
  if String.eqb typ "o" then "n" else if String.eqb typ "n" then "o" else typ.

Definition mirror_groups (groups : list (string * Z)) : list (string * Z) :=
  map (fun g => (mirror_typ (fst g), snd g)) groups.

(** The groups a diff output stands for, when every line of it parses. *)
Fixpoint parse_groups (diff_lines : list string) : outcome (list (string * Z)) :=
  match diff_lines with
  | [] => Ret []
  | line :: rest =>
      obind (parse_group line) (fun g =>
      obind (parse_groups rest) (fun gs => Ret (g :: gs)))
  end.

(** The object after a run of [line_mapping] calls; a call that raises
    leaves the object as it found it. *)
Fixpoint after_calls (env : Env) (calls : list (string * string))
    (self : GitFileHistory) : GitFileHistory :=
  match calls with
  | [] => self
  | (x, y) :: rest =>
      match line_mapping env x y self with
      | (Ret (_, self'), _) => after_calls env rest self'
      | _ => after_calls env rest self
      end
  end.

(** A call for [(x, y)] can write over an entry of the pair [(s, f)] only
    through its second store, the one under [key y x], and only when its own
    key is not one of the pair's. *)
Definition clobbers (s f x y : string) : Prop :=
  (key y x = key s f \/ key y x = key f s)
  /\ key x y <> key s f /\ key x y <> key f s.

(** The five commands of one pass of [_build_line_mappings]. *)
Definition one_pass (start finish path : string) : list command :=
  [git_show start path; git_show finish path; diff_fds start finish path;
   git_show start path; git_show finish path].

(** The fields of a header as the description of the format has them: cut
    at runs of white space. *)
Fixpoint ws_fields_go (cur : string) (s : string) : list string :=
  match s with
  | EmptyString => if String.eqb cur "" then [] else [cur]
  | String c s' =>
      if Py.isspace c
      then (if String.eqb cur "" then ws_fields_go "" s' else cur :: ws_fields_go "" s')
      else ws_fields_go (cur +:+ String c "") s'
  end.

Definition ws_fields (s : string) : list string := ws_fields_go "" s.

(** The blame parser as the format is described: one entry per header, its
    first three white-space separated fields, the annotation lines passed
    over, the content line without its marker. *)
Fixpoint blame_described (current_sha : string) (p : list string)
    : outcome (list GitBlameLine.t) :=
  match p with
  | [] => Ret []
  | header :: p1 =>
      match take 3 (ws_fields header) with
      | [sha; original_line; final_line] =>
          (fix skip (q : list string) : outcome (list GitBlameLine.t) :=
             match q with
             | [] => Diverge
             | line :: q' =>
                 if Py.startswith Py.TAB line
                 then obind (blame_described current_sha q') (fun rest =>
                      Ret (GitBlameLine.mk sha (Py.tail line)
                             (String.eqb sha current_sha)
                             original_line final_line :: rest))
                 else skip q'
             end) p1
      | _ => Raise (ValueError None)
      end
  end.

(** One entry of well-formed blame output: a header of three fields and
    an optional group size, annotation lines, the content line. *)
Record blame_entry := mkEntry {
  e_sha : string;
  e_original : string;
  e_final : string;
  e_group : option string;
  e_annotations : list string;
  e_content : string }.

(** No white space inside. *)
Fixpoint no_space (s : string) : bool :=
  match s with
  | EmptyString => true
  | String c s' => negb (Py.isspace c) && no_space s'
  end.

Definition word (s : string) : bool := negb (String.eqb s "") && no_space s.

(** The lines of an entry, as [git blame -p] prints them. *)
Definition header_of (e : blame_entry) : string :=
  e_sha e +:+ String " " (e_original e +:+ String " " (e_final e +:+
    match e_group e with
    | Some n => String " " (n +:+ nl)
    | None => nl
    end)).

Definition rendered (e : blame_entry) : list string :=
  header_of e :: e_annotations e ++ [tab +:+ e_content e].

Definition well_formed (e : blame_entry) : Prop :=
  word (e_sha e) = true /\ word (e_original e) = true /\ word (e_final e) = true
  /\ (forall n, e_group e = Some n -> word n = true)
  /\ Forall (fun l => Py.startswith Py.TAB l = false) (e_annotations e).

(** What the code makes of an entry, and what the description of the
    format makes of it. *)
Definition line_read (current_sha : string) (e : blame_entry) : GitBlameLine.t :=
  GitBlameLine.mk (e_sha e) (e_content e) (String.eqb (e_sha e) current_sha)
    (e_original e)
    (match e_group e with Some _ => e_final e | None => e_final e +:+ nl end).

Definition line_described (current_sha : string) (e : blame_entry) : GitBlameLine.t :=
  GitBlameLine.mk (e_sha e) (e_content e) (String.eqb (e_sha e) current_sha)
    (e_original e) (e_final e).

(** [k] calls of [prev], and [k] calls of [next], one after the other. *)
Definition prevs (k : nat) (self : GitFileHistory) : GitFileHistory :=
  Nat.iter k (fun s => snd (prev s)) self.

Definition nexts (k : nat) (self : GitFileHistory) : GitFileHistory :=
  Nat.iter k (fun s => snd (next s)) self.

(** The shape the loops of [_build_line_mappings] keep: each map is defined
    on the line numbers below its cursor and on no other, the values of the
    forward map are line numbers of the other side, and the forward map
    keeps the order of the lines it does not delete. *)
Definition shaped (c : cursors) : Prop :=
  0 <= start_ln c /\ 0 <= finish_ln c
  /\ (forall i : Z, is_Some (forward c !! i) <-> 0 <= i < start_ln c)
  /\ (forall j : Z, is_Some (backward c !! j) <-> 0 <= j < finish_ln c)
  /\ (forall i j : Z, forward c !! i = Some (Some j) -> 0 <= j < finish_ln c)
  /\ (forall i j i' j' : Z,
        forward c !! i = Some (Some j) -> forward c !! i' = Some (Some j') ->
        i < i' -> j < j').

(** The lines of the start side, and of the finish side, that a list of
    groups accounts for. *)
Definition left_lines (groups : list (string * Z)) : Z :=
  fold_right (fun g acc =>
                (if String.eqb (fst g) "u" || String.eqb (fst g) "o"
                 then Z.max 0 (snd g) else 0) + acc) 0 groups.

Definition right_lines (groups : list (string * Z)) : Z :=
  fold_right (fun g acc =>
                (if String.eqb (fst g) "u" || String.eqb (fst g) "n"
                 then Z.max 0 (snd g) else 0) + acc) 0 groups.

(** No newline inside. *)
Fixpoint no_newline (s : string) : bool :=
  match s with
  | EmptyString => true
  | String c s' => negb (Ascii.eqb c Py.LF) && no_newline s'
  end.

(** What [git log] prints for one commit under the format of [init],
    [%H%n%an%n%s%n], and the newline that ends the entry; [rest] is what
    follows. *)
Definition log_entry (c : GitCommit.t) (rest : string) : string :=
  GitCommit.sha c +:+ nl +:+ GitCommit.author c +:+ nl +:+ GitCommit.message c
  +:+ nl +:+ nl +:+ rest.

Definition log_text (cs : list GitCommit.t) : string := fold_right log_entry "" cs.

(** A commit whose three fields are single lines, with an author and a
    subject that are not empty. *)
Definition plain_commit (c : GitCommit.t) : Prop :=
  no_newline (GitCommit.sha c) = true
  /\ no_newline (GitCommit.author c) = true /\ GitCommit.author c <> ""
  /\ no_newline (GitCommit.message c) = true /\ GitCommit.message c <> "".

(** The text of a pipe whose lines are [lines]; a line is text without a
    newline, followed by one. *)
Definition join (lines : list string) : string := fold_right String.append "" lines.

Definition is_line (l : string) : Prop :=
  exists body : string, l = body +:+ nl /\ no_newline body = true.

(** The annotation lines and the content of a blame entry are lines. *)
Definition lines_of_entry (e : blame_entry) : Prop :=
  Forall is_line (e_annotations e) /\ is_line (e_content e).

(** What [%dn] and [%dN] of the group formats print: a count in base ten. *)
Definition digit_char (d : nat) : ascii := ascii_of_nat (48 + d).

Fixpoint decimal_go (fuel n : nat) (acc : string) : string :=
  match fuel with
  | O => acc
  | S fuel' =>
      let acc' := String (digit_char (n mod 10)) acc in
      if Nat.eqb (n / 10) 0 then acc' else decimal_go fuel' (n / 10) acc'
  end.

Definition decimal (n : nat) : string := decimal_go (S n) n "".

Fixpoint all_digits (s : string) : bool :=
  match s with
  | EmptyString => true
  | String c s' => match Py.digit c with Some _ => all_digits s' | None => false end
  end.

(** What [diff] prints for a list of groups under the three group formats
    of [_build_line_mappings], [o %dn\n], [n %dN\n] and [u %dN\n]: per
    group its letter, a blank, its count and a newline. *)
Definition group_line (g : string * nat) : string := fst g +:+ " " +:+ decimal (snd g).

Definition group_text (g : string * nat) (rest : string) : string :=
  fst g +:+ " " +:+ decimal (snd g) +:+ nl +:+ rest.

Definition diff_text (groups : list (string * nat)) : string :=
  fold_right group_text "" groups.

(** The same text without its last newline. *)
Fixpoint text_body (g : string * nat) (gs : list (string * nat)) : string :=
  match gs with
  | [] => group_line g
  | g' :: gs' => group_line g +:+ nl +:+ text_body g' gs'
  end.

(** ** Concrete repositories *)

(** A repository in which every revision resolves and every path is
    tracked; [shows] and [diffs] give the content and the diff output. *)
Definition repo (log blame : string) (shows : string -> string)
    (diffs : string -> string -> string) : Env :=
  mkEnv (fun _ => 0) (fun p => p +:+ nl) (fun _ _ => log) (fun _ _ => blame)
        (fun rev _ => shows rev) (fun a b => (diffs a b, "")).

(** One commit, as [git log] prints it with the format of [init]. *)
Definition one_commit_log : string :=
  "c0ffee" +:+ nl +:+ "ann" +:+ nl +:+ "first" +:+ nl +:+ nl.

Definition fresh (commits : list GitCommit.t) : GitFileHistory :=
  mkHistory "f" commits 0 None ∅.

Definition one_commit : list GitCommit.t := [GitCommit.mk "c0ffee" "ann" "first"].

(** Scenario 2 of the description: a line inserted between two lines. *)
Definition insert_repo : Env :=
  repo one_commit_log ""
       (fun rev => if String.eqb rev "A" then "a" +:+ nl +:+ "b" +:+ nl
                   else "a" +:+ nl +:+ "x" +:+ nl +:+ "b" +:+ nl)
       (fun _ _ => "u 1" +:+ nl +:+ "n 1" +:+ nl +:+ "u 1" +:+ nl).

(** A file of two lines that no revision changes. *)
Definition same_repo : Env :=
  repo one_commit_log ""
       (fun _ => "a" +:+ nl +:+ "b" +:+ nl)
       (fun _ _ => "u 2" +:+ nl).

(** A file whose first line goes away between the tag [a] and the branch
    [a/a]. *)
Definition clash_repo : Env :=
  repo one_commit_log ""
       (fun rev => if String.eqb rev "a" then "p" +:+ nl +:+ "q" +:+ nl else "q" +:+ nl)
       (fun _ _ => "o 1" +:+ nl +:+ "u 1" +:+ nl).

(** A file that is empty at its only commit: [git blame] prints nothing. *)
Definition empty_file_repo : Env :=
  repo one_commit_log "" (fun _ => "") (fun _ _ => "").

(** Two lines from one commit: the header of the second line of the group
    carries no group size. *)
Definition two_line_blame : string :=
  "c0ffee 1 1 2" +:+ nl +:+ "author ann" +:+ nl +:+ tab +:+ "a" +:+ nl +:+
  "c0ffee 2 2" +:+ nl +:+ tab +:+ "b" +:+ nl.

Definition group_repo : Env :=
  repo one_commit_log two_line_blame
       (fun _ => "a" +:+ nl +:+ "b" +:+ nl) (fun _ _ => "u 2" +:+ nl).

(** A repository that knows no revision, and one that tracks no file. *)
Definition no_revision_repo : Env :=
  mkEnv (fun _ => 128) (fun p => p +:+ nl) (fun _ _ => one_commit_log)
        (fun _ _ => "") (fun _ _ => "") (fun _ _ => ("", "")).

Definition no_file_repo : Env :=
  mkEnv (fun _ => 0) (fun _ => "") (fun _ _ => one_commit_log)
        (fun _ _ => "") (fun _ _ => "") (fun _ _ => ("", "")).

(** A file that loses its first line from [a] to any other revision; the
    diff of the swapped contents reports the new line where the other
    reports the old one. *)
Definition swap_repo : Env :=
  repo one_commit_log ""
       (fun rev => if String.eqb rev "a" then "p" +:+ nl +:+ "q" +:+ nl else "q" +:+ nl)
       (fun x _ => if String.eqb x ("q" +:+ nl)
                   then "n 1" +:+ nl +:+ "u 1" +:+ nl
                   else "o 1" +:+ nl +:+ "u 1" +:+ nl).

(** The two lines [a], [b] at [A] and the three lines [b], [a], [a] at any
    other revision, with what GNU diff prints for them under the formats of
    the source: one old line, one unchanged, two new from [A]; two old, one
    unchanged, one new towards [A]. *)
Definition order_repo : Env :=
  repo one_commit_log ""
       (fun rev => if String.eqb rev "A" then "a" +:+ nl +:+ "b" +:+ nl
                   else "b" +:+ nl +:+ "a" +:+ nl +:+ "a" +:+ nl)
       (fun x _ => if String.eqb x ("a" +:+ nl +:+ "b" +:+ nl)
                   then "o 1" +:+ nl +:+ "u 1" +:+ nl +:+ "n 2" +:+ nl
                   else "o 2" +:+ nl +:+ "u 1" +:+ nl +:+ "n 1" +:+ nl).

(** * Properties *)

(** ** Python's string operations on small inputs *)

Example split_space : Py.split " " "abc 1 2 3" = ["abc"; "1"; "2"; "3"].
Proof. reflexivity. Qed.

Example split_blank_line :
  Py.split (nl +:+ nl) ("a" +:+ nl +:+ nl +:+ "b" +:+ nl +:+ nl) = ["a"; "b"; ""].
Proof. reflexivity. Qed.

Example splitn_two :
  Py.splitn nl 2 ("s" +:+ nl +:+ "a" +:+ nl +:+ "m" +:+ nl +:+ "n")
  = ["s"; "a"; "m" +:+ nl +:+ "n"].
Proof. reflexivity. Qed.

Example readlines_keep_ends :
  Py.readlines ("a" +:+ nl +:+ nl +:+ "b") = ["a" +:+ nl; nl; "b"].
Proof. reflexivity. Qed.

Example strip_ends : Py.strip (" u 1" +:+ nl) = "u 1".
Proof. reflexivity. Qed.

Example int_examples :
  Py.int "12" = Some 12 /\ Py.int "-3" = Some (-3) /\ Py.int "" = None
  /\ Py.int "1x" = None.
Proof. repeat split; reflexivity. Qed.

Example init_one_commit :
  init insert_repo "f" "HEAD"
  = (Ret (fresh one_commit),
     [git_rev_parse "HEAD"; git_ls_files "f"; git_log "HEAD" "f"]).
Proof. reflexivity. Qed.

(** ** The cursor *)

Lemma next_spec (self : GitFileHistory) :
  in_bounds self -> step_spec Next self (next self) /\ in_bounds (snd (next self)).
Proof.
  unfold in_bounds, step_spec, next. intros Hb.
  destruct (Z.leb_spec (_index self) 0) as [Hle | Hgt].
  - assert (_index self = 0) as -> by lia. simpl. split; [reflexivity | lia].
  - destruct (Z.eqb_spec (_index self) 0) as [E | _]; [lia |].
    simpl. repeat split; lia.
Qed.

Lemma prev_spec (self : GitFileHistory) :
  in_bounds self -> step_spec Prev self (prev self) /\ in_bounds (snd (prev self)).
Proof.
  unfold in_bounds, step_spec, prev. intros Hb.
  set (n := Z.of_nat (length (commits self))) in *.
  destruct (Z.geb_spec (_index self) (n - 1)) as [Hge | Hlt].
  - assert (_index self = n - 1) as E by lia.
    rewrite E, Z.eqb_refl. simpl. split; [reflexivity | lia].
  - destruct (Z.eqb_spec (_index self) (n - 1)) as [E | _]; [lia |].
    simpl. fold n. repeat split; lia.
Qed.

Lemma do_step_spec (s : step) (self : GitFileHistory) :
  in_bounds self ->
  step_spec s self (do_step s self) /\ in_bounds (snd (do_step s self)).
Proof. destruct s; [apply next_spec | apply prev_spec]. Qed.

(** A non-empty history with the cursor at the newest commit, as [init]
    leaves it, is in bounds. *)
Lemma newest_in_bounds (self : GitFileHistory) :
  commits self <> [] -> _index self = 0 -> in_bounds self.
Proof.
  unfold in_bounds. intros Hne ->. destruct (commits self); [congruence |].
  simpl. lia.
Qed.

(** C4. From a position inside the history (so the history is not empty;
    position 0 of a non-empty history is such a position), every call of
    every sequence of [next] and [prev] leaves the position inside
    [0 .. length - 1]; [next] at position 0 and [prev] at the last index
    return [False] and change nothing, every other call returns [True] and
    moves the position by exactly one. *)
Theorem cursor_stays_in_bounds (self : GitFileHistory) (ss : list step) :
  in_bounds self ->
  each_step (fun s before r => step_spec s before r /\ in_bounds (snd r)) ss self.
Proof.
  revert self.
  induction ss as [| s ss IH]; intros self Hb; simpl; [exact I |].
  destruct (do_step_spec s self Hb) as [Hs Hb'].
  split; [split; assumption | apply IH; exact Hb'].
Qed.

Lemma cursor_stays_in_bounds_witness :
  each_step (fun s before r => step_spec s before r /\ in_bounds (snd r))
    [Next; Prev; Prev; Next; Next]
    (fresh (one_commit ++ one_commit)).
Proof.
  apply cursor_stays_in_bounds.
  unfold in_bounds; simpl; lia.
Defined.

(** C5. A cursor call never touches the line-mapping cache; when it returns
    [True] it has moved the cursor and emptied the blame cache, when it
    returns [False] the whole object is as before. *)
Theorem step_drops_blame_only (s : step) (self : GitFileHistory) :
  _line_mappings (snd (do_step s self)) = _line_mappings self
  /\ (if fst (do_step s self)
      then _blame (snd (do_step s self)) = None
           /\ _index (snd (do_step s self)) <> _index self
      else snd (do_step s self) = self).
Proof.
  destruct s; simpl; unfold next, prev.
  - destruct (_index self <=? 0); simpl; repeat split; try reflexivity; lia.
  - destruct (_index self >=? _); simpl; repeat split; try reflexivity; lia.
Qed.

(** ** Construction *)

Lemma readlines_go_nil (cur s : string) :
  Py.readlines_go cur s = [] -> cur = "" /\ s = "".
Proof.
  revert cur. induction s as [| c s IH]; intros cur; simpl.
  - destruct (String.eqb_spec cur ""); [auto | discriminate].
  - destruct (Ascii.eqb c Py.LF); [discriminate |].
    intros H. apply IH in H as [H _]. destruct cur; discriminate.
Qed.

(** [git ls-files] lists nothing exactly when its output is empty. *)
Lemma readlines_nil (s : string) : Py.readlines s = [] <-> s = "".
Proof.
  split.
  - intros H. apply readlines_go_nil in H. tauto.
  - intros ->. reflexivity.
Qed.

(** C9. When the revision does not resolve, [init] raises the error for an
    invalid revision after the single query that checks the revision: no
    history is asked for.  When the revision resolves and [git ls-files]
    lists nothing for the path, [init] raises the error for an untracked
    file, again without asking for the history.  Either way the call raises:
    it returns no object. *)
Theorem init_rejects (env : Env) (path start_commit : string) :
  (rev_parse_status env start_commit <> 0 ->
     init env path start_commit
     = (Raise (invalid_revision start_commit), [git_rev_parse start_commit]))
  /\ (rev_parse_status env start_commit = 0 ->
      Py.readlines (ls_files_out env path) = [] ->
      init env path start_commit
      = (Raise (untracked_file path),
         [git_rev_parse start_commit; git_ls_files path])).
Proof.
  unfold init, verify_revision, verify_file. split.
  - intros H. apply Z.eqb_neq in H. simpl. rewrite H. reflexivity.
  - intros H Hl. simpl. rewrite H, Hl. reflexivity.
Qed.

Lemma init_rejects_witness :
  init no_revision_repo "f" "nowhere"
  = (Raise (invalid_revision "nowhere"), [git_rev_parse "nowhere"])
  /\ init no_file_repo "f" "HEAD"
     = (Raise (untracked_file "f"), [git_rev_parse "HEAD"; git_ls_files "f"]).
Proof.
  split.
  - apply (proj1 (init_rejects no_revision_repo "f" "nowhere")). simpl. lia.
  - apply (proj2 (init_rejects no_file_repo "f" "HEAD")); reflexivity.
Defined.

(** An object that [init] returns stands at the newest commit and has both
    caches empty. *)
Lemma init_returns (env : Env) (path start_commit : string)
    (self : GitFileHistory) (cmds : list command) :
  init env path start_commit = (Ret self, cmds) ->
  _index self = 0 /\ _blame self = None /\ _line_mappings self = ∅
  /\ cmds = [git_rev_parse start_commit; git_ls_files path;
             git_log start_commit path].
Proof.
  unfold init, verify_revision, verify_file. simpl.
  destruct (rev_parse_status env start_commit =? 0); simpl; [| discriminate].
  destruct (0 <? _); simpl; [| discriminate].
  destruct (make_commits _) as [cs | e |]; simpl; try discriminate.
  intros [= <- <-]. auto.
Qed.

(** ** The cache key *)

Lemma append_nil_l (s : string) : "" +:+ s = s.
Proof. reflexivity. Qed.

Lemma append_cons (c : ascii) (s t : string) : String c s +:+ t = String c (s +:+ t).
Proof. reflexivity. Qed.

Ltac str_simpl := rewrite ?append_cons, ?append_nil_l.
Ltac str_simpl_in H := rewrite ?append_cons, ?append_nil_l in H.

Lemma slash_free_app (c d : string) : slash_free (c +:+ String "/" d) = false.
Proof.
  induction c as [| ch c IH]; str_simpl; simpl; [reflexivity |].
  rewrite IH. apply andb_false_r.
Qed.

Lemma key_inj (a b c d : string) :
  slash_free a = true -> slash_free b = true ->
  key a b = key c d -> a = c /\ b = d.
Proof.
  unfold key. revert c.
  induction a as [| ah a IH]; intros c Ha Hb E.
  - destruct c as [| ch c]; str_simpl_in E.
    + injection E as ->. auto.
    + injection E as <- ->. rewrite slash_free_app in Hb. discriminate.
  - simpl in Ha. apply andb_true_iff in Ha as [Hah Ha].
    destruct c as [| ch c]; str_simpl_in E.
    + injection E as -> _. discriminate.
    + injection E as -> E. apply IH in E as [-> ->]; auto.
Qed.

Lemma line_mapping_hit (env : Env) (start finish : string)
    (self : GitFileHistory) (m : linemap) :
  _line_mappings self !! key start finish = Some m ->
  line_mapping env start finish self = (Ret (m, self), []).
Proof. unfold line_mapping. intros ->. reflexivity. Qed.

(** What a call that returns leaves under its own key: the map it returned,
    unless the two keys of the pair are one, in which case the entry was
    written twice. *)
Lemma line_mapping_own_entry (env : Env) (start finish : string)
    (self self1 : GitFileHistory) (m : linemap) (cmds : list command) :
  key start finish <> key finish start ->
  line_mapping env start finish self = (Ret (m, self1), cmds) ->
  _line_mappings self1 !! key start finish = Some m.
Proof.
  unfold line_mapping. intros Hk.
  destruct (_line_mappings self !! key start finish) as [m0 |] eqn:E.
  - intros [= <- <- <-]. exact E.
  - destruct (_build_line_mappings env start finish self) as [[[f b] | e |] l];
      simpl; intros [= <- <- <-]; simpl.
    rewrite lookup_insert_ne by congruence. apply lookup_insert_eq.
Qed.

(** ** Blame *)

(** A cached blame of at least one line is returned as it is, and nothing
    is asked of [git]. *)
Lemma blame_cached (env : Env) (self : GitFileHistory)
    (l : GitBlameLine.t) (ls : list GitBlameLine.t) :
  _blame self = Some (l :: ls) ->
  blame env self = (Ret (l :: ls, self), []).
Proof. unfold blame. intros ->. reflexivity. Qed.

(** X8. After a call that returned at least one line, the next call returns
    the same lines without a query. *)
Lemma blame_twice (env : Env) (self self1 : GitFileHistory)
    (l : GitBlameLine.t) (ls : list GitBlameLine.t) (cmds : list command) :
  blame env self = (Ret (l :: ls, self1), cmds) ->
  blame env self1 = (Ret (l :: ls, self1), []).
Proof.
  intros H. apply blame_cached. revert H. unfold blame.
  destruct (_blame self) as [[| l0 ls0] |] eqn:E.
  - destruct (current_commit self) as [[c | e |] l1]; simpl; try discriminate.
    destruct (blame_loop _ _ _); simpl; try discriminate.
    intros [= <- <- <-]. reflexivity.
  - intros [= <- <- <- <-]. exact E.
  - destruct (current_commit self) as [[c | e |] l1]; simpl; try discriminate.
    destruct (blame_loop _ _ _); simpl; try discriminate.
    intros [= <- <- <-]. reflexivity.
Qed.

(** The truth test makes a cached empty list count for nothing: the call
    goes the way it goes on an empty cache. *)
Lemma blame_empty_cache_ignored (env : Env) (self : GitFileHistory) :
  _blame self = Some [] -> blame env self = blame env (set_blame None self).
Proof. unfold blame. intros ->. reflexivity. Qed.

(** C6, where the code departs from it.  The file is empty at the current
    commit, so the first [blame] stores the empty list.  The second call
    finds that list in the cache, fails the truth test on it and runs
    [git blame] again. *)
Theorem blame_empty_is_asked_again :
  exists self1 : GitFileHistory,
    blame empty_file_repo (fresh one_commit)
    = (Ret ([], self1), [git_blame "f" "c0ffee"])
    /\ _blame self1 = Some []
    /\ blame empty_file_repo self1 = (Ret ([], self1), [git_blame "f" "c0ffee"]).
Proof. eexists. repeat split. Qed.

(** *** Well-formed blame output *)

Lemma append_assoc (a b c : string) : (a +:+ b) +:+ c = a +:+ (b +:+ c).
Proof. induction a as [| x a IH]; str_simpl; [reflexivity | rewrite IH; reflexivity]. Qed.

Lemma append_nil_r (a : string) : a +:+ "" = a.
Proof. induction a as [| x a IH]; str_simpl; [reflexivity | rewrite IH; reflexivity]. Qed.

Lemma prefix_nil (s : string) : String.prefix "" s = true.
Proof. destruct s; reflexivity. Qed.

Lemma prefix_blank (c : ascii) (s : string) :
  String.prefix " " (String c s) = Ascii.eqb c " ".
Proof.
  change (String.prefix " " (String c s))
    with (if Ascii.ascii_dec " " c then String.prefix "" s else false).
  destruct (Ascii.ascii_dec " " c) as [<- | Hne].
  - rewrite prefix_nil. reflexivity.
  - symmetry. apply Ascii.eqb_neq. congruence.
Qed.

Lemma split_go_step (cur : string) (c : ascii) (s : string) :
  Py.split_go " " None 0 cur (String c s)
  = if Ascii.eqb c " "
    then cur :: Py.split_go " " None 0 "" s
    else Py.split_go " " None 0 (cur +:+ String c "") s.
Proof. rewrite <- (prefix_blank c s). reflexivity. Qed.

Lemma not_space_not_blank (c : ascii) :
  Py.isspace c = false -> Ascii.eqb c " " = false.
Proof. intros H. apply Ascii.eqb_neq. intros ->. discriminate H. Qed.

Lemma split_go_word (cur w : string) (s : string) :
  no_space w = true ->
  Py.split_go " " None 0 cur (w +:+ String " " s)
  = (cur +:+ w) :: Py.split_go " " None 0 "" s.
Proof.
  revert cur. induction w as [| c w IH]; intros cur Hw; str_simpl.
  - rewrite append_nil_r, split_go_step. reflexivity.
  - simpl in Hw. apply andb_true_iff in Hw as [Hc Hw].
    apply negb_true_iff, not_space_not_blank in Hc.
    rewrite split_go_step, Hc, IH by exact Hw.
    rewrite append_assoc. reflexivity.
Qed.

Lemma split_go_last (cur w : string) :
  no_space w = true ->
  Py.split_go " " None 0 cur (w +:+ nl) = [cur +:+ w +:+ nl].
Proof.
  revert cur. induction w as [| c w IH]; intros cur Hw; str_simpl.
  - reflexivity.
  - simpl in Hw. apply andb_true_iff in Hw as [Hc Hw].
    apply negb_true_iff, not_space_not_blank in Hc.
    rewrite split_go_step, Hc, IH by exact Hw.
    rewrite append_assoc. reflexivity.
Qed.

Lemma word_no_space (w : string) : word w = true -> no_space w = true.
Proof. unfold word. intros H. apply andb_true_iff in H as [_ H]. exact H. Qed.

Lemma header_fields_read (e : blame_entry) :
  well_formed e ->
  take 3 (Py.split " " (header_of e))
  = [e_sha e; e_original e;
     match e_group e with Some _ => e_final e | None => e_final e +:+ nl end].
Proof.
  intros (Hs & Ho & Hf & Hg & _). unfold Py.split, header_of.
  rewrite split_go_word by (apply word_no_space; exact Hs).
  rewrite split_go_word by (apply word_no_space; exact Ho).
  destruct (e_group e) as [n |].
  - rewrite split_go_word by (apply word_no_space; exact Hf). reflexivity.
  - rewrite split_go_last by (apply word_no_space; exact Hf). reflexivity.
Qed.

Lemma header_not_empty (e : blame_entry) : String.eqb (header_of e) "" = false.
Proof. unfold header_of. destruct (e_sha e); reflexivity. Qed.

Lemma blame_loop_entry (current_sha : string) (lines : list GitBlameLine.t)
    (e : blame_entry) (rest : list string) :
  well_formed e ->
  blame_loop current_sha lines (rendered e ++ rest)
  = blame_loop current_sha (lines ++ [line_read current_sha e]) rest.
Proof.
  intros Hwf. pose proof (header_fields_read e Hwf) as Hfields.
  destruct Hwf as (_ & _ & _ & _ & Hann).
  unfold rendered. simpl. rewrite header_not_empty, Hfields.
  induction Hann as [| a anns Ha _ IH]; simpl.
  - reflexivity.
  - rewrite Ha. exact IH.
Qed.

(** On well-formed output the loop returns one line per entry, in order:
    the sha, the original line number, the text and the flag of the entry,
    and a final line number that is the entry's when the header carries a
    group size and the entry's followed by the newline when it does not. *)
Lemma blame_loop_rendered (current_sha : string) (es : list blame_entry)
    (lines : list GitBlameLine.t) :
  Forall well_formed es ->
  blame_loop current_sha lines (concat (map rendered es))
  = Ret (lines ++ map (line_read current_sha) es).
Proof.
  intros Hes. revert lines.
  induction Hes as [| e es He _ IH]; intros lines; cbn [map concat].
  - rewrite app_nil_r. reflexivity.
  - rewrite blame_loop_entry by exact He. rewrite IH, <- app_assoc. reflexivity.
Qed.

Lemma ws_fields_go_step (cur : string) (c : ascii) (s : string) :
  ws_fields_go cur (String c s)
  = if Py.isspace c
    then (if String.eqb cur "" then ws_fields_go "" s else cur :: ws_fields_go "" s)
    else ws_fields_go (cur +:+ String c "") s.
Proof. reflexivity. Qed.

Lemma append_not_empty (a : string) (c : ascii) (b : string) :
  String.eqb (a +:+ String c b) "" = false.
Proof. destruct a; reflexivity. Qed.

(** A word followed by a white-space character is the next field. *)
Lemma ws_fields_go_word (cur w : string) (c : ascii) (s : string) :
  no_space w = true -> String.eqb (cur +:+ w) "" = false -> Py.isspace c = true ->
  ws_fields_go cur (w +:+ String c s) = (cur +:+ w) :: ws_fields_go "" s.
Proof.
  revert cur. induction w as [| d w IH]; intros cur Hw Hne Hc; str_simpl.
  - rewrite append_nil_r in *. rewrite ws_fields_go_step, Hc, Hne. reflexivity.
  - simpl in Hw. apply andb_true_iff in Hw as [Hd Hw].
    apply negb_true_iff in Hd.
    rewrite ws_fields_go_step, Hd, IH; try assumption.
    + rewrite append_assoc. reflexivity.
    + rewrite append_assoc. str_simpl. apply append_not_empty.
Qed.

Lemma word_not_empty (w : string) : word w = true -> String.eqb w "" = false.
Proof. unfold word. intros H. apply andb_true_iff in H as [H _]. apply negb_true_iff, H. Qed.

Lemma header_fields_described (e : blame_entry) :
  well_formed e ->
  take 3 (ws_fields (header_of e)) = [e_sha e; e_original e; e_final e].
Proof.
  intros (Hs & Ho & Hf & Hg & _). unfold ws_fields, header_of.
  rewrite ws_fields_go_word;
    [| apply word_no_space, Hs | apply word_not_empty, Hs | reflexivity].
  rewrite ws_fields_go_word;
    [| apply word_no_space, Ho | apply word_not_empty, Ho | reflexivity].
  destruct (e_group e) as [n |].
  - rewrite ws_fields_go_word;
      [| apply word_no_space, Hf | apply word_not_empty, Hf | reflexivity].
    reflexivity.
  - unfold nl. rewrite ws_fields_go_word;
      [| apply word_no_space, Hf | apply word_not_empty, Hf | reflexivity].
    reflexivity.
Qed.

Lemma blame_described_entry (current_sha : string) (e : blame_entry)
    (rest : list string) :
  well_formed e ->
  blame_described current_sha (rendered e ++ rest)
  = obind (blame_described current_sha rest)
      (fun ls => Ret (line_described current_sha e :: ls)).
Proof.
  intros Hwf. pose proof (header_fields_described e Hwf) as Hfields.
  destruct Hwf as (_ & _ & _ & _ & Hann).
  unfold rendered. simpl. rewrite Hfields.
  induction Hann as [| a anns Ha _ IH]; simpl.
  - reflexivity.
  - rewrite Ha. exact IH.
Qed.

(** The parser of the description gives the entry's final line number in
    both cases. *)
Lemma blame_described_rendered (current_sha : string) (es : list blame_entry) :
  Forall well_formed es ->
  blame_described current_sha (concat (map rendered es))
  = Ret (map (line_described current_sha) es).
Proof.
  intros Hes.
  induction Hes as [| e es He _ IH]; cbn [map concat].
  - reflexivity.
  - rewrite blame_described_entry by exact He. rewrite IH. reflexivity.
Qed.

(** C7, where the code departs from it.  The second header of a group has
    three fields and the line ends right after the third.  Cut at the
    blanks, the third piece keeps the newline: the final line number of the
    second entry is the text [2] followed by the newline, while the third
    white-space separated field of that header is [2]. *)
Theorem blame_final_line_keeps_newline :
  Py.split " " ("c0ffee 2 2" +:+ nl) = ["c0ffee"; "2"; "2" +:+ nl]
  /\ ws_fields ("c0ffee 2 2" +:+ nl) = ["c0ffee"; "2"; "2"]
  /\ fst (blame group_repo (fresh one_commit))
     = Ret ([GitBlameLine.mk "c0ffee" ("a" +:+ nl) true "1" "1";
             GitBlameLine.mk "c0ffee" ("b" +:+ nl) true "2" ("2" +:+ nl)],
            set_blame
              (Some [GitBlameLine.mk "c0ffee" ("a" +:+ nl) true "1" "1";
                     GitBlameLine.mk "c0ffee" ("b" +:+ nl) true "2" ("2" +:+ nl)])
              (fresh one_commit))
  /\ blame_described "c0ffee" (Py.readlines (blame_out group_repo "f" "c0ffee"))
     = Ret [GitBlameLine.mk "c0ffee" ("a" +:+ nl) true "1" "1";
            GitBlameLine.mk "c0ffee" ("b" +:+ nl) true "2" "2"].
Proof. repeat split. Qed.

(** ** The line mapper: the loops *)

Lemma tracked_start : tracked cursors0.
Proof.
  unfold tracked, inverse_maps, cursors0; simpl.
  repeat split; intros *; rewrite ?lookup_empty; try discriminate;
    intros [x Hx]; discriminate.
Qed.

Lemma below_insert (m : linemap) (k : Z) (v : option Z) (bound : Z) :
  (forall i : Z, is_Some (m !! i) -> i < bound) -> k < bound + 1 ->
  forall i : Z, is_Some (<[k := v]> m !! i) -> i < bound + 1.
Proof.
  intros H Hk i. destruct (decide (k = i)) as [<- | Hne].
  - intros _. exact Hk.
  - rewrite lookup_insert_ne by exact Hne. intros Hi. apply H in Hi. lia.
Qed.

Lemma tracked_unchanged_line (c : cursors) : tracked c -> tracked (unchanged_line c).
Proof.
  intros (Hinv & Hf & Hb). unfold tracked, unchanged_line; simpl.
  split; [| split].
  - intros i j.
    destruct (decide (start_ln c = i)) as [<- | Hi];
      destruct (decide (finish_ln c = j)) as [<- | Hj].
    + rewrite !lookup_insert_eq. tauto.
    + rewrite lookup_insert_eq, lookup_insert_ne by exact Hj.
      split; [congruence |]. intros Hbj. apply Hinv in Hbj.
      assert (start_ln c < start_ln c) by (apply Hf; rewrite Hbj; eauto). lia.
    + rewrite lookup_insert_ne by exact Hi. rewrite lookup_insert_eq.
      split; [| congruence]. intros Hfi. apply Hinv in Hfi.
      assert (finish_ln c < finish_ln c) by (apply Hb; rewrite Hfi; eauto). lia.
    + rewrite !lookup_insert_ne by assumption. apply Hinv.
  - apply below_insert; [exact Hf | lia].
  - apply below_insert; [exact Hb | lia].
Qed.

Lemma tracked_old_line (c : cursors) : tracked c -> tracked (old_line c).
Proof.
  intros (Hinv & Hf & Hb). unfold tracked, old_line; simpl.
  split; [| split].
  - intros i j. destruct (decide (start_ln c = i)) as [<- | Hi].
    + rewrite lookup_insert_eq. split; [discriminate |].
      intros Hbj. apply Hinv in Hbj.
      assert (start_ln c < start_ln c) by (apply Hf; rewrite Hbj; eauto). lia.
    + rewrite lookup_insert_ne by exact Hi. apply Hinv.
  - apply below_insert; [exact Hf | lia].
  - exact Hb.
Qed.

Lemma tracked_new_line (c : cursors) : tracked c -> tracked (new_line c).
Proof.
  intros (Hinv & Hf & Hb). unfold tracked, new_line; simpl.
  split; [| split].
  - intros i j. destruct (decide (finish_ln c = j)) as [<- | Hj].
    + rewrite lookup_insert_eq. split; [| discriminate].
      intros Hfi. apply Hinv in Hfi.
      assert (finish_ln c < finish_ln c) by (apply Hb; rewrite Hfi; eauto). lia.
    + rewrite lookup_insert_ne by exact Hj. apply Hinv.
  - exact Hf.
  - apply below_insert; [exact Hb | lia].
Qed.

Lemma iter_preserves {A} (P : A -> Prop) (f : A -> A) (n : nat) (a : A) :
  (forall x, P x -> P (f x)) -> P a -> P (Nat.iter n f a).
Proof. intros Hf Ha. induction n as [| n IH]; simpl; auto. Qed.

Lemma tracked_group (typ : string) (num_lines : Z) (c : cursors) :
  tracked c -> tracked (group typ num_lines c).
Proof.
  intros H. unfold group.
  destruct (String.eqb typ "u");
    [apply iter_preserves; auto using tracked_unchanged_line |].
  destruct (String.eqb typ "o");
    [apply iter_preserves; auto using tracked_old_line |].
  destruct (String.eqb typ "n");
    [apply iter_preserves; auto using tracked_new_line | exact H].
Qed.

Lemma tracked_diff_loop (diff_lines : list string) (c c' : cursors) :
  diff_loop diff_lines c = Ret c' -> tracked c -> tracked c'.
Proof.
  revert c. induction diff_lines as [| line rest IH]; intros c; simpl.
  - intros [= <-]. auto.
  - destruct (parse_group line) as [[typ n] | e |]; simpl; try discriminate.
    intros H Hc. eapply IH; [exact H | apply tracked_group; exact Hc].
Qed.

Lemma tracked_stretch_loop (fuel : nat) (start_len finish_len : Z) (c : cursors) :
  tracked c -> tracked (stretch_loop fuel start_len finish_len c).
Proof.
  revert c. induction fuel as [| fuel IH]; intros c Hc; simpl; [exact Hc |].
  destruct ((start_ln c <=? start_len) && (finish_ln c <=? finish_len));
    [apply IH, tracked_unchanged_line, Hc | exact Hc].
Qed.

(** The fuel of [stretch] is enough: the loop is left because its test
    failed. *)
Lemma stretch_loop_exits (fuel : nat) (start_len finish_len : Z) (c : cursors) :
  start_len - start_ln c + 1 <= Z.of_nat fuel ->
  let c' := stretch_loop fuel start_len finish_len c in
  (start_ln c' <=? start_len) && (finish_ln c' <=? finish_len) = false.
Proof.
  revert c. induction fuel as [| fuel IH]; intros c Hfuel; simpl.
  - apply andb_false_iff. left. apply Z.leb_gt. lia.
  - destruct ((start_ln c <=? start_len) && (finish_ln c <=? finish_len)) eqn:E;
      [| exact E].
    apply IH. simpl. lia.
Qed.

Lemma stretch_exits (start_len finish_len : Z) (c : cursors) :
  let c' := stretch start_len finish_len c in
  (start_ln c' <=? start_len) && (finish_ln c' <=? finish_len) = false.
Proof. apply stretch_loop_exits. lia. Qed.

(** [diff_loop] is [groups_loop] after the parsing. *)
Lemma diff_loop_parsed (diff_lines : list string) (groups : list (string * Z))
    (c : cursors) :
  parse_groups diff_lines = Ret groups ->
  diff_loop diff_lines c = Ret (groups_loop groups c).
Proof.
  revert groups c. induction diff_lines as [| line rest IH]; intros groups c; simpl.
  - intros [= <-]. reflexivity.
  - destruct (parse_group line) as [g | e |]; simpl; try discriminate.
    destruct (parse_groups rest) as [gs | e |] eqn:E; simpl; try discriminate.
    intros [= <-]. simpl. apply IH. reflexivity.
Qed.

(** How [_build_line_mappings] ends when it returns: one pass of five
    commands, and the two maps are what [stretch] left of the cursors the
    diff loop produced. *)
Lemma build_returns (env : Env) (start finish : string) (self : GitFileHistory)
    (f b : linemap) (cmds : list command) :
  _build_line_mappings env start finish self = (Ret (f, b), cmds) ->
  cmds = one_pass start finish (path self)
  /\ exists c : cursors,
       diff_loop (diff_lines_of
                    (fst (diff_out env (show_out env start (path self))
                                       (show_out env finish (path self)))))
                 cursors0 = Ret c
       /\ snd (diff_out env (show_out env start (path self))
                            (show_out env finish (path self))) = ""
       /\ let c' := stretch
                      (Z.of_nat (length (Py.readlines (show_out env start (path self)))))
                      (Z.of_nat (length (Py.readlines (show_out env finish (path self)))))
                      c in
          f = forward c' /\ b = backward c'.
Proof.
  unfold _build_line_mappings. simpl.
  destruct (String.eqb_spec
              (snd (diff_out env (show_out env start (path self))
                                 (show_out env finish (path self)))) "") as [Herr | Herr];
    simpl; [| discriminate].
  destruct (diff_loop _ cursors0) as [c | e |] eqn:E; simpl; try discriminate.
  intros [= <- <- <-]. split; [reflexivity |].
  exists c. auto.
Qed.

Lemma build_inverse (env : Env) (start finish : string) (self : GitFileHistory)
    (f b : linemap) (cmds : list command) :
  _build_line_mappings env start finish self = (Ret (f, b), cmds) ->
  inverse_maps f b.
Proof.
  intros H. apply build_returns in H as (_ & c & Hloop & _ & -> & ->).
  apply tracked_stretch_loop. eapply tracked_diff_loop; [exact Hloop |].
  apply tracked_start.
Qed.

(** *** The swapped pair *)

Lemma iter_mirror (f g : cursors -> cursors) (n : nat) (c : cursors) :
  (forall x, f (mirror x) = mirror (g x)) ->
  Nat.iter n f (mirror c) = mirror (Nat.iter n g c).
Proof. intros H. induction n as [| n IH]; simpl; [reflexivity |]. rewrite IH. apply H. Qed.

Lemma group_mirror (typ : string) (num_lines : Z) (c : cursors) :
  group (mirror_typ typ) num_lines (mirror c) = mirror (group typ num_lines c).
Proof.
  unfold group, mirror_typ.
  destruct (String.eqb_spec typ "u") as [-> | Hu]; simpl.
  { apply iter_mirror. reflexivity. }
  destruct (String.eqb_spec typ "o") as [-> | Ho]; simpl.
  { apply iter_mirror. reflexivity. }
  destruct (String.eqb_spec typ "n") as [-> | Hn]; simpl.
  { apply iter_mirror. reflexivity. }
  destruct (String.eqb_spec typ "u"); [contradiction |].
  destruct (String.eqb_spec typ "o"); [contradiction |].
  destruct (String.eqb_spec typ "n"); [contradiction |].
  reflexivity.
Qed.

Lemma groups_loop_mirror (groups : list (string * Z)) (c : cursors) :
  groups_loop (mirror_groups groups) (mirror c) = mirror (groups_loop groups c).
Proof.
  revert c. induction groups as [| g gs IH]; intros c; simpl; [reflexivity |].
  rewrite group_mirror. apply IH.
Qed.

Lemma stretch_loop_mirror (fuel : nat) (start_len finish_len : Z) (c : cursors) :
  stretch_loop fuel finish_len start_len (mirror c)
  = mirror (stretch_loop fuel start_len finish_len c).
Proof.
  revert c. induction fuel as [| fuel IH]; intros c; simpl; [reflexivity |].
  rewrite andb_comm.
  destruct ((start_ln c <=? start_len) && (finish_ln c <=? finish_len));
    [| reflexivity].
  apply (IH (unchanged_line c)).
Qed.

Lemma stretch_loop_exits_finish (fuel : nat) (start_len finish_len : Z) (c : cursors) :
  finish_len - finish_ln c + 1 <= Z.of_nat fuel ->
  let c' := stretch_loop fuel start_len finish_len c in
  (start_ln c' <=? start_len) && (finish_ln c' <=? finish_len) = false.
Proof.
  revert c. induction fuel as [| fuel IH]; intros c Hfuel; simpl.
  - apply andb_false_iff. right. apply Z.leb_gt. lia.
  - destruct ((start_ln c <=? start_len) && (finish_ln c <=? finish_len)) eqn:E;
      [| exact E].
    apply IH. simpl. lia.
Qed.

(** Once the loop has left on its test, more fuel changes nothing. *)
Lemma stretch_loop_more (fuel fuel' : nat) (start_len finish_len : Z) (c : cursors) :
  (let c' := stretch_loop fuel start_len finish_len c in
   (start_ln c' <=? start_len) && (finish_ln c' <=? finish_len) = false) ->
  (fuel <= fuel')%nat ->
  stretch_loop fuel' start_len finish_len c = stretch_loop fuel start_len finish_len c.
Proof.
  revert fuel' c. induction fuel as [| fuel IH]; intros fuel' c Hexit Hle.
  - simpl in *. destruct fuel' as [| fuel']; simpl; [reflexivity |].
    rewrite Hexit. reflexivity.
  - destruct fuel' as [| fuel']; [lia |]. simpl in *.
    destruct ((start_ln c <=? start_len) && (finish_ln c <=? finish_len));
      [| reflexivity].
    apply IH; [exact Hexit | lia].
Qed.

Lemma stretch_mirror (start_len finish_len : Z) (c : cursors) :
  stretch finish_len start_len (mirror c) = mirror (stretch start_len finish_len c).
Proof.
  unfold stretch. rewrite stretch_loop_mirror. f_equal. simpl.
  set (f1 := Z.to_nat (finish_len - finish_ln c + 1)).
  set (f2 := Z.to_nat (start_len - start_ln c + 1)).
  rewrite <- (stretch_loop_more f1 (Nat.max f1 f2));
    [| apply stretch_loop_exits_finish; lia | lia].
  rewrite <- (stretch_loop_more f2 (Nat.max f1 f2));
    [| apply stretch_loop_exits; lia | lia].
  reflexivity.
Qed.

(** X18. When the diff of the swapped pair reports the mirrored groups, the
    swapped computation returns the swapped pair of maps. *)
Lemma build_mirrored (env : Env) (A B : string) (self : GitFileHistory)
    (out out' : string) (groups : list (string * Z)) :
  diff_out env (show_out env A (path self)) (show_out env B (path self)) = (out, "") ->
  diff_out env (show_out env B (path self)) (show_out env A (path self)) = (out', "") ->
  parse_groups (diff_lines_of out) = Ret groups ->
  parse_groups (diff_lines_of out') = Ret (mirror_groups groups) ->
  exists f b : linemap,
    _build_line_mappings env A B self = (Ret (f, b), one_pass A B (path self))
    /\ _build_line_mappings env B A self = (Ret (b, f), one_pass B A (path self)).
Proof.
  intros Hd Hd' Hp Hp'.
  set (sl := Z.of_nat (length (Py.readlines (show_out env A (path self))))).
  set (fl := Z.of_nat (length (Py.readlines (show_out env B (path self))))).
  pose (c := stretch sl fl (groups_loop groups cursors0)).
  exists (forward c), (backward c). split.
  - unfold _build_line_mappings. rewrite Hd. simpl.
    rewrite (diff_loop_parsed _ _ _ Hp). reflexivity.
  - assert (stretch fl sl (groups_loop (mirror_groups groups) cursors0) = mirror c)
      as Hm.
    { change cursors0 with (mirror cursors0) at 1.
      rewrite groups_loop_mirror. apply stretch_mirror. }
    unfold _build_line_mappings. rewrite Hd'. simpl.
    rewrite (diff_loop_parsed _ _ _ Hp'). simpl.
    fold sl fl. rewrite Hm. reflexivity.
Qed.

(** ** The line mapper: the cache *)

(** A call that finds nothing under its key and returns has run one pass,
    returned the forward map and stored the backward map under the reversed
    key. *)
Lemma line_mapping_miss (env : Env) (start finish : string)
    (self self1 : GitFileHistory) (fwd : linemap) (cmds : list command) :
  _line_mappings self !! key start finish = None ->
  line_mapping env start finish self = (Ret (fwd, self1), cmds) ->
  exists bwd : linemap,
    _build_line_mappings env start finish self = (Ret (fwd, bwd), cmds)
    /\ self1 = set_line_mappings
                 (<[key finish start := bwd]>
                    (<[key start finish := fwd]> (_line_mappings self))) self.
Proof.
  unfold line_mapping. intros ->.
  destruct (_build_line_mappings env start finish self) as [[[f b] | e |] l];
    simpl; try discriminate.
  intros [= <- <- <-]. exists b. rewrite app_nil_r. auto.
Qed.

(** How a computation that reads the groups [groups] off the diff output
    ends. *)
Lemma build_of_groups (env : Env) (start finish : string) (self : GitFileHistory)
    (out : string) (groups : list (string * Z)) :
  diff_out env (show_out env start (path self)) (show_out env finish (path self))
  = (out, "") ->
  parse_groups (diff_lines_of out) = Ret groups ->
  let c := stretch (Z.of_nat (length (Py.readlines (show_out env start (path self)))))
                   (Z.of_nat (length (Py.readlines (show_out env finish (path self)))))
                   (groups_loop groups cursors0) in
  _build_line_mappings env start finish self
  = (Ret (forward c, backward c), one_pass start finish (path self)).
Proof.
  intros Hd Hp. unfold _build_line_mappings. rewrite Hd. simpl.
  rewrite (diff_loop_parsed _ _ _ Hp). reflexivity.
Qed.

(** A call that computes and returns is followed by a hit for the reversed
    pair, whatever the two keys are: the store under the reversed key is the
    later of the two. *)
Lemma line_mapping_then_reverse (env : Env) (A B : string) (self : GitFileHistory)
    (f b : linemap) (cmds : list command) :
  _line_mappings self !! key A B = None ->
  _build_line_mappings env A B self = (Ret (f, b), cmds) ->
  exists self1 : GitFileHistory,
    line_mapping env A B self = (Ret (f, self1), cmds)
    /\ line_mapping env B A self1 = (Ret (b, self1), []).
Proof.
  intros Hmiss Hbuild. eexists. split.
  - unfold line_mapping. rewrite Hmiss, Hbuild. simpl. rewrite app_nil_r. reflexivity.
  - apply line_mapping_hit. simpl. apply lookup_insert_eq.
Qed.

(** C1 as it is worded does not hold in its last part.  For the contents
    [a], [b] and [b], [a], [a], diff reports one old line, one unchanged and
    two new lines one way, and two old, one unchanged and one new the other
    way.  Asked first, [line_mapping(A, B)] deletes line 0; asked after
    [line_mapping(B, A)], it is the backward map of that computation and
    sends line 0 to line 2. *)
Lemma line_mapping_order_matters :
  exists (first later other : linemap) (self1 self2 : GitFileHistory),
    line_mapping order_repo "A" "B" (fresh one_commit)
    = (Ret (first, self1), one_pass "A" "B" "f")
    /\ line_mapping order_repo "B" "A" (fresh one_commit)
       = (Ret (other, self2), one_pass "B" "A" "f")
    /\ line_mapping order_repo "A" "B" self2 = (Ret (later, self2), [])
    /\ first !! 0 = Some None /\ later !! 0 = Some (Some 2)
    /\ first <> later.
Proof.
  destruct (line_mapping order_repo "A" "B" (fresh one_commit))
    as [[[first self1] | e |] cmds1] eqn:E1; try (vm_compute in E1; discriminate).
  destruct (line_mapping order_repo "B" "A" (fresh one_commit))
    as [[[other self2] | e |] cmds2] eqn:E2; try (vm_compute in E2; discriminate).
  vm_compute in E1. injection E1 as <- <- <-.
  vm_compute in E2. injection E2 as <- <- <-.
  eexists _, _, _, _, _. split; [reflexivity |]. split; [reflexivity |].
  split; [reflexivity |]. split; [reflexivity |]. split; [reflexivity |].
  discriminate.
Qed.

(** C1, amended.  When [line_mapping(A, B)] computes (nothing is stored under
    its key) and returns, the map it returns and the map a following
    [line_mapping(B, A)] returns are the forward and the backward map of
    that one run of [_build_line_mappings]; the second call runs no command;
    and the two maps undo each other on their entries that are not [None].
    [A] and [B] are arbitrary, so this is so whichever direction is asked
    for first.  The two orders give the same pair of maps when diff reports
    for the swapped pair the mirrored groups. *)
Theorem line_mapping_pair_inverse (env : Env) (A B : string) (self : GitFileHistory) :
  (forall (fwd : linemap) (self1 : GitFileHistory) (cmds : list command),
     _line_mappings self !! key A B = None ->
     line_mapping env A B self = (Ret (fwd, self1), cmds) ->
     exists bwd : linemap,
       _build_line_mappings env A B self = (Ret (fwd, bwd), cmds)
       /\ line_mapping env B A self1 = (Ret (bwd, self1), [])
       /\ inverse_maps fwd bwd)
  /\ (forall (out out' : string) (groups : list (string * Z)),
        _line_mappings self !! key A B = None ->
        _line_mappings self !! key B A = None ->
        diff_out env (show_out env A (path self)) (show_out env B (path self))
        = (out, "") ->
        diff_out env (show_out env B (path self)) (show_out env A (path self))
        = (out', "") ->
        parse_groups (diff_lines_of out) = Ret groups ->
        parse_groups (diff_lines_of out') = Ret (mirror_groups groups) ->
        exists (f b : linemap) (self1 self2 : GitFileHistory),
          line_mapping env A B self = (Ret (f, self1), one_pass A B (path self))
          /\ line_mapping env B A self1 = (Ret (b, self1), [])
          /\ line_mapping env B A self = (Ret (b, self2), one_pass B A (path self))
          /\ line_mapping env A B self2 = (Ret (f, self2), [])
          /\ inverse_maps f b).
Proof.
  split.
  - intros fwd self1 cmds Hmiss Hcall.
    destruct (line_mapping_miss _ _ _ _ _ _ _ Hmiss Hcall) as (bwd & Hbuild & ->).
    exists bwd. split; [exact Hbuild |]. split.
    + apply line_mapping_hit. simpl. apply lookup_insert_eq.
    + eapply build_inverse. exact Hbuild.
  - intros out out' groups HmissAB HmissBA Hd Hd' Hp Hp'.
    pose proof (build_of_groups env A B self out groups Hd Hp) as HAB.
    pose proof (build_of_groups env B A self out' _ Hd' Hp') as HBA.
    simpl in HAB, HBA.
    change cursors0 with (mirror cursors0) in HBA at 1 2.
    rewrite groups_loop_mirror, stretch_mirror in HBA. simpl in HBA.
    destruct (line_mapping_then_reverse env A B self _ _ _ HmissAB HAB)
      as (self1 & H1 & H2).
    destruct (line_mapping_then_reverse env B A self _ _ _ HmissBA HBA)
      as (self2 & H3 & H4).
    eexists _, _, self1, self2.
    split; [exact H1 |]. split; [exact H2 |]. split; [exact H3 |].
    split; [exact H4 |]. eapply build_inverse. exact HAB.
Qed.

Lemma line_mapping_pair_inverse_witness :
  (exists (fwd bwd : linemap) (self1 : GitFileHistory) (cmds : list command),
     line_mapping order_repo "A" "B" (fresh one_commit) = (Ret (fwd, self1), cmds)
     /\ line_mapping order_repo "B" "A" self1 = (Ret (bwd, self1), [])
     /\ inverse_maps fwd bwd)
  /\ (exists (f b : linemap) (self1 self2 : GitFileHistory),
        line_mapping swap_repo "a" "b" (fresh one_commit)
        = (Ret (f, self1), one_pass "a" "b" "f")
        /\ line_mapping swap_repo "b" "a" self1 = (Ret (b, self1), [])
        /\ line_mapping swap_repo "b" "a" (fresh one_commit)
           = (Ret (b, self2), one_pass "b" "a" "f")
        /\ line_mapping swap_repo "a" "b" self2 = (Ret (f, self2), [])).
Proof.
  split.
  - destruct (line_mapping order_repo "A" "B" (fresh one_commit))
      as [[[fwd self1] | e |] cmds] eqn:E; try (vm_compute in E; discriminate).
    destruct (proj1 (line_mapping_pair_inverse order_repo "A" "B" (fresh one_commit))
                fwd self1 cmds) as (bwd & _ & H2 & H3); [reflexivity | exact E |].
    exists fwd, bwd, self1, cmds. auto.
  - destruct (proj2 (line_mapping_pair_inverse swap_repo "a" "b" (fresh one_commit))
                ("o 1" +:+ nl +:+ "u 1" +:+ nl) ("n 1" +:+ nl +:+ "u 1" +:+ nl)
                [("o", 1); ("u", 1)])
      as (f & b & self1 & self2 & H1 & H2 & H3 & H4 & _); try reflexivity.
    exists f, b, self1, self2. auto.
Defined.

(** C2 as it is worded does not hold: in that scenario the loop that
    stretches the maps to the end of the files adds the entry for the
    position after the last line, so the forward map is not [{0:0, 1:2}],
    nor is the backward map [{0:0, 1:None, 2:1}]. *)
Lemma insert_between_has_end_entry :
  exists (f b : linemap) (cmds : list command),
    _build_line_mappings insert_repo "A" "B" (fresh one_commit) = (Ret (f, b), cmds)
    /\ f !! 2 = Some (Some 3) /\ b !! 3 = Some (Some 2)
    /\ f <> {[0 := Some 0; 1 := Some 2]}
    /\ b <> {[0 := Some 0; 1 := None; 2 := Some 1]}.
Proof.
  destruct (_build_line_mappings insert_repo "A" "B" (fresh one_commit))
    as [[[f b] | e |] cmds] eqn:E; try (vm_compute in E; discriminate).
  exists f, b, cmds. split; [reflexivity |].
  assert (f !! 2 = Some (Some 3) /\ b !! 3 = Some (Some 2)) as [Hf Hb].
  { vm_compute in E. injection E as <- <- _. split; reflexivity. }
  repeat split; try assumption.
  - intros ->. discriminate Hf.
  - intros ->. discriminate Hb.
Qed.

(** C2, amended.  Start is the two lines [a], [b], finish is [a], [x], [b]
    and the diff prints [u 1], [n 1], [u 1]: the forward map is
    [{0:0, 1:2, 2:3}] and the backward map [{0:0, 1:None, 2:1, 3:2}], the
    last entry of each being the position after the last line. *)
Theorem insert_between_mapping (env : Env) (self : GitFileHistory)
    (start finish : string) :
  show_out env start (path self) = "a" +:+ nl +:+ "b" +:+ nl ->
  show_out env finish (path self) = "a" +:+ nl +:+ "x" +:+ nl +:+ "b" +:+ nl ->
  diff_out env (show_out env start (path self)) (show_out env finish (path self))
  = ("u 1" +:+ nl +:+ "n 1" +:+ nl +:+ "u 1" +:+ nl, "") ->
  _build_line_mappings env start finish self
  = (Ret ({[0 := Some 0; 1 := Some 2; 2 := Some 3]},
          {[0 := Some 0; 1 := None; 2 := Some 1; 3 := Some 2]}),
     one_pass start finish (path self)).
Proof.
  intros Hs Hf Hd. unfold _build_line_mappings.
  rewrite Hd. rewrite Hs, Hf. vm_compute. reflexivity.
Qed.

Lemma insert_between_mapping_witness :
  _build_line_mappings insert_repo "A" "B" (fresh one_commit)
  = (Ret ({[0 := Some 0; 1 := Some 2; 2 := Some 3]},
          {[0 := Some 0; 1 := None; 2 := Some 1; 3 := Some 2]}),
     one_pass "A" "B" "f").
Proof.
  apply (insert_between_mapping insert_repo (fresh one_commit) "A" "B");
    reflexivity.
Defined.

Lemma ident_start : ident_below 0 cursors0.
Proof.
  unfold ident_below, cursors0; simpl. repeat split; intros i;
    rewrite lookup_empty; destruct (0 <=? i) eqn:E1, (i <? 0) eqn:E2;
    try reflexivity; lia.
Qed.

Lemma ident_insert (m : linemap) (n : Z) :
  0 <= n ->
  (forall i : Z, m !! i = if (0 <=? i) && (i <? n) then Some (Some i) else None) ->
  forall i : Z, <[n := Some n]> m !! i
                = if (0 <=? i) && (i <? n + 1) then Some (Some i) else None.
Proof.
  intros Hn H i. destruct (decide (n = i)) as [<- | Hne].
  - rewrite lookup_insert_eq.
    destruct (0 <=? n) eqn:E1, (n <? n + 1) eqn:E2; try reflexivity; lia.
  - rewrite lookup_insert_ne by exact Hne. rewrite H.
    destruct (0 <=? i) eqn:E1, (i <? n) eqn:E2, (i <? n + 1) eqn:E3;
      try reflexivity; lia.
Qed.

Lemma ident_unchanged_line (n : Z) (c : cursors) :
  0 <= n -> ident_below n c -> ident_below (n + 1) (unchanged_line c).
Proof.
  intros Hn (Hs & Hf & Hfw & Hbw). unfold ident_below, unchanged_line; simpl.
  rewrite Hs, Hf. repeat split; apply ident_insert; assumption.
Qed.

Lemma ident_iter (k : nat) (n : Z) (c : cursors) :
  0 <= n -> ident_below n c ->
  ident_below (n + Z.of_nat k) (Nat.iter k unchanged_line c).
Proof.
  intros Hn Hc. induction k as [| k IH].
  - simpl. rewrite Z.add_0_r. exact Hc.
  - simpl Nat.iter. replace (n + Z.of_nat (S k)) with (n + Z.of_nat k + 1) by lia.
    apply ident_unchanged_line; [lia | exact IH].
Qed.

(** On cursors that stand at the common length of the two files the
    stretching loop makes exactly one turn. *)
Lemma ident_stretch (n : Z) (c : cursors) :
  0 <= n -> ident_below n c -> ident_below (n + 1) (stretch n n c).
Proof.
  intros Hn Hc. pose proof Hc as (Hs & Hf & _).
  unfold stretch. rewrite Hs.
  replace (Z.to_nat (n - n + 1)) with 1%nat by lia.
  simpl. rewrite Hs, Hf, Z.leb_refl. simpl.
  apply ident_unchanged_line; assumption.
Qed.

Lemma ident_identity_upto (n : Z) (c : cursors) :
  ident_below (n + 1) c ->
  identity_upto n (forward c) /\ forward c = backward c.
Proof.
  intros (_ & _ & Hfw & Hbw). split.
  - intros i. rewrite Hfw.
    destruct (0 <=? i) eqn:E1, (i <? n + 1) eqn:E2, (i <=? n) eqn:E3;
      try reflexivity; lia.
  - apply map_eq. intros i. rewrite Hfw, Hbw. reflexivity.
Qed.

(** C3. A revision of [N] lines is mapped to itself, the diff reporting one
    unchanged group of [N] lines (or nothing at all, for an empty file):
    both maps are the identity on [0 .. N], [N] included, and have no other
    entry, so none is [None]; this map is what [line_mapping] returns and
    what it leaves in the cache. *)
Theorem self_mapping_identity (env : Env) (self : GitFileHistory) (A : string)
    (N : Z) (out : string) (groups : list (string * Z)) :
  _line_mappings self !! key A A = None ->
  N = Z.of_nat (length (Py.readlines (show_out env A (path self)))) ->
  diff_out env (show_out env A (path self)) (show_out env A (path self)) = (out, "") ->
  parse_groups (diff_lines_of out) = Ret groups ->
  groups = [("u", N)] \/ (N = 0 /\ groups = []) ->
  exists m : linemap,
    _build_line_mappings env A A self = (Ret (m, m), one_pass A A (path self))
    /\ identity_upto N m
    /\ line_mapping env A A self
       = (Ret (m, set_line_mappings (<[key A A := m]> (_line_mappings self)) self),
          one_pass A A (path self)).
Proof.
  intros Hmiss HN Hd Hparse Hgroups.
  assert (0 <= N) as Hpos by lia.
  assert (ident_below N (groups_loop groups cursors0)) as Hloop.
  { destruct Hgroups as [-> | [HN0 ->]]; simpl.
    - unfold group. simpl.
      replace N with (0 + Z.of_nat (Z.to_nat N)) at 1 by lia.
      apply ident_iter; [lia | apply ident_start].
    - rewrite HN0. apply ident_start. }
  apply ident_stretch in Hloop; [| exact Hpos].
  apply ident_identity_upto in Hloop as [Hid Heq].
  assert (_build_line_mappings env A A self
          = (Ret (forward (stretch N N (groups_loop groups cursors0)),
                  forward (stretch N N (groups_loop groups cursors0))),
             one_pass A A (path self))) as Hbuild.
  { unfold _build_line_mappings. rewrite Hd. simpl.
    rewrite (diff_loop_parsed _ _ _ Hparse). simpl.
    rewrite <- HN, <- Heq. reflexivity. }
  eexists. split; [exact Hbuild |]. split; [exact Hid |].
  unfold line_mapping. rewrite Hmiss, Hbuild. simpl.
  rewrite insert_insert_eq. reflexivity.
Qed.

Lemma self_mapping_identity_witness :
  exists m : linemap,
    _build_line_mappings same_repo "HEAD" "HEAD" (fresh one_commit)
    = (Ret (m, m), one_pass "HEAD" "HEAD" "f")
    /\ identity_upto 2 m
    /\ line_mapping same_repo "HEAD" "HEAD" (fresh one_commit)
       = (Ret (m, set_line_mappings (<[key "HEAD" "HEAD" := m]> ∅) (fresh one_commit)),
          one_pass "HEAD" "HEAD" "f").
Proof.
  apply (self_mapping_identity same_repo (fresh one_commit) "HEAD" 2
           ("u 2" +:+ nl) [("u", 2)]); try reflexivity.
  left. reflexivity.
Defined.

(** The empty file: the diff prints nothing and the map is [{0: 0}]. *)
Example empty_file_self_mapping :
  fst (line_mapping empty_file_repo "HEAD" "HEAD" (fresh one_commit))
  = Ret ({[0 := Some 0]},
         set_line_mappings {[key "HEAD" "HEAD" := {[0 := Some 0]}]} (fresh one_commit)).
Proof. vm_compute. reflexivity. Qed.

(** Stored entries of the pair [(s, f)] outlive every call that does not
    clobber them. *)
Lemma line_mapping_keeps (env : Env) (s f x y : string)
    (self self' : GitFileHistory) (fwd bwd m : linemap) (cmds : list command) :
  ~ clobbers s f x y ->
  _line_mappings self !! key s f = Some fwd ->
  _line_mappings self !! key f s = Some bwd ->
  line_mapping env x y self = (Ret (m, self'), cmds) ->
  _line_mappings self' !! key s f = Some fwd
  /\ _line_mappings self' !! key f s = Some bwd.
Proof.
  intros Hsafe H1 H2. unfold line_mapping.
  destruct (_line_mappings self !! key x y) as [m0 |] eqn:E.
  - intros [= <- <- <-]. auto.
  - destruct (_build_line_mappings env x y self) as [[[fw bw] | e |] l];
      simpl; try discriminate.
    intros [= <- <- <-]. simpl.
    assert (key x y <> key s f) as N1 by (intros Heq; congruence).
    assert (key x y <> key f s) as N2 by (intros Heq; congruence).
    assert (key y x <> key s f) as N3 by (intros Heq; apply Hsafe; red; auto).
    assert (key y x <> key f s) as N4 by (intros Heq; apply Hsafe; red; auto).
    rewrite !lookup_insert_ne by assumption. auto.
Qed.

Lemma after_calls_keeps (env : Env) (s f : string) (fwd bwd : linemap)
    (calls : list (string * string)) (self : GitFileHistory) :
  Forall (fun c => ~ clobbers s f (fst c) (snd c)) calls ->
  _line_mappings self !! key s f = Some fwd ->
  _line_mappings self !! key f s = Some bwd ->
  _line_mappings (after_calls env calls self) !! key s f = Some fwd
  /\ _line_mappings (after_calls env calls self) !! key f s = Some bwd.
Proof.
  intros Hsafe. revert self.
  induction Hsafe as [| [x y] calls Hxy _ IH]; intros self H1 H2; simpl; [auto |].
  destruct (line_mapping env x y self) as [[[m self'] | e |] cmds] eqn:E;
    try (apply IH; assumption).
  destruct (line_mapping_keeps env s f x y self self' fwd bwd m cmds Hxy H1 H2 E).
  apply IH; assumption.
Qed.

(** Calls between identifiers without ['/'] clobber nothing. *)
Lemma slash_free_never_clobbers (s f x y : string) :
  slash_free x = true -> slash_free y = true -> ~ clobbers s f x y.
Proof.
  intros Hx Hy ([E | E] & N1 & N2);
    destruct (key_inj y x _ _ Hy Hx E) as [-> ->]; congruence.
Qed.

(** C8, where the code departs from it.  For the tag [a] and the branch
    [a/a] the two keys are the same text [a/a/a]: the backward map is stored
    over the forward map, and the next call for the same pair returns the
    backward map, whose keys are lines of the finish side, not the map the
    first call returned. *)
Lemma line_mapping_key_clash :
  exists (fwd m : linemap) (self1 : GitFileHistory) (cmds : list command),
    line_mapping clash_repo "a" "a/a" (fresh one_commit) = (Ret (fwd, self1), cmds)
    /\ line_mapping clash_repo "a" "a/a" self1 = (Ret (m, self1), [])
    /\ fwd !! 0 = Some None /\ m !! 0 = Some (Some 1)
    /\ m <> fwd.
Proof.
  destruct (line_mapping clash_repo "a" "a/a" (fresh one_commit))
    as [[[fwd self1] | e |] cmds] eqn:E; try (vm_compute in E; discriminate).
  destruct (line_mapping clash_repo "a" "a/a" self1)
    as [[[m self2] | e |] cmds2] eqn:E2;
    vm_compute in E; injection E as <- <- <-;
    vm_compute in E2; try discriminate.
  injection E2 as <- <- <-.
  eexists _, _, _, _. split; [reflexivity |]. split; [reflexivity |].
  split; [reflexivity |]. split; [reflexivity |]. discriminate.
Qed.

(** X19. The two keys of the pair differ and nothing is stored under
    [key start finish]: a call that returns has run one pass, returns the
    forward map, and leaves the forward map under [key start finish] and the
    backward map under [key finish start].  After any further calls that do
    not clobber these keys, a call for either ordered pair returns the map
    stored for it, leaves the object as it is and runs no command. *)
Theorem line_mapping_cached (env : Env) (start finish : string)
    (self self1 : GitFileHistory) (fwd : linemap) (cmds : list command)
    (calls : list (string * string)) :
  key start finish <> key finish start ->
  _line_mappings self !! key start finish = None ->
  line_mapping env start finish self = (Ret (fwd, self1), cmds) ->
  Forall (fun c => ~ clobbers start finish (fst c) (snd c)) calls ->
  exists bwd : linemap,
    _build_line_mappings env start finish self = (Ret (fwd, bwd), cmds)
    /\ cmds = one_pass start finish (path self)
    /\ _line_mappings self1 !! key start finish = Some fwd
    /\ _line_mappings self1 !! key finish start = Some bwd
    /\ line_mapping env start finish (after_calls env calls self1)
       = (Ret (fwd, after_calls env calls self1), [])
    /\ line_mapping env finish start (after_calls env calls self1)
       = (Ret (bwd, after_calls env calls self1), []).
Proof.
  intros Hk Hmiss Hcall Hsafe.
  destruct (line_mapping_miss _ _ _ _ _ _ _ Hmiss Hcall) as (bwd & Hbuild & ->).
  assert (_line_mappings
            (set_line_mappings
               (<[key finish start := bwd]>
                  (<[key start finish := fwd]> (_line_mappings self))) self)
          !! key start finish = Some fwd) as H1.
  { simpl. rewrite lookup_insert_ne by congruence. apply lookup_insert_eq. }
  assert (_line_mappings
            (set_line_mappings
               (<[key finish start := bwd]>
                  (<[key start finish := fwd]> (_line_mappings self))) self)
          !! key finish start = Some bwd) as H2.
  { simpl. apply lookup_insert_eq. }
  destruct (after_calls_keeps env start finish fwd bwd calls _ Hsafe H1 H2)
    as [K1 K2].
  exists bwd. split; [exact Hbuild |].
  split; [apply (build_returns _ _ _ _ _ _ _ Hbuild) |].
  split; [exact H1 |]. split; [exact H2 |].
  split; apply line_mapping_hit; assumption.
Qed.

Lemma line_mapping_cached_witness :
  exists (fwd bwd : linemap) (self1 : GitFileHistory),
    line_mapping insert_repo "A" "B" (fresh one_commit)
    = (Ret (fwd, self1), one_pass "A" "B" "f")
    /\ line_mapping insert_repo "A" "B"
         (after_calls insert_repo [("B", "C"); ("B", "A")] self1)
       = (Ret (fwd, after_calls insert_repo [("B", "C"); ("B", "A")] self1), [])
    /\ line_mapping insert_repo "B" "A"
         (after_calls insert_repo [("B", "C"); ("B", "A")] self1)
       = (Ret (bwd, after_calls insert_repo [("B", "C"); ("B", "A")] self1), []).
Proof.
  destruct (line_mapping insert_repo "A" "B" (fresh one_commit))
    as [[[fwd self1] | e |] cmds] eqn:E; try (vm_compute in E; discriminate).
  destruct (line_mapping_cached insert_repo "A" "B" (fresh one_commit) self1 fwd
              cmds [("B", "C"); ("B", "A")])
    as (bwd & _ & -> & _ & _ & H1 & H2).
  - discriminate.
  - reflexivity.
  - exact E.
  - repeat constructor; apply slash_free_never_clobbers; reflexivity.
  - exists fwd, bwd, self1. auto.
Defined.

(** Every computation starts with the two [git show] and the [diff]. *)
Lemma build_log_starts (env : Env) (start finish : string) (self : GitFileHistory) :
  exists l : list command,
    snd (_build_line_mappings env start finish self)
    = git_show start (path self) :: git_show finish (path self)
      :: diff_fds start finish (path self) :: l.
Proof.
  unfold _build_line_mappings. simpl.
  destruct (negb _); simpl; [eauto |].
  destruct (diff_loop _ cursors0); simpl; eauto.
Qed.

(** A call that finds nothing under its key runs commands. *)
Lemma line_mapping_miss_runs (env : Env) (start finish : string)
    (self : GitFileHistory) :
  _line_mappings self !! key start finish = None ->
  snd (line_mapping env start finish self) <> [].
Proof.
  intros Hmiss. unfold line_mapping. rewrite Hmiss.
  destruct (build_log_starts env start finish self) as (l & Hl).
  destruct (_build_line_mappings env start finish self) as [[[f b] | e |] l0];
    simpl in *; subst l0; discriminate.
Qed.

(** After a call that returns, something is filed under the key of the
    pair: the map returned, unless the reversed pair has the same key. *)
Lemma line_mapping_files (env : Env) (start finish : string)
    (self self1 : GitFileHistory) (m : linemap) (cmds : list command) :
  line_mapping env start finish self = (Ret (m, self1), cmds) ->
  exists m' : linemap,
    _line_mappings self1 !! key start finish = Some m'
    /\ (key start finish <> key finish start -> m' = m).
Proof.
  unfold line_mapping.
  destruct (_line_mappings self !! key start finish) as [m0 |] eqn:Hlook.
  - intros [= <- <- <-]. exists m0. auto.
  - destruct (_build_line_mappings env start finish self) as [[[f b] | e |] l];
      simpl; try discriminate.
    intros [= <- <- <-]. simpl.
    destruct (decide (key finish start = key start finish)) as [E | N].
    + exists b. rewrite E. split; [apply lookup_insert_eq | congruence].
    + exists f. rewrite lookup_insert_ne by exact N.
      split; [apply lookup_insert_eq | reflexivity].
Qed.

(** C10. The cache is looked up and filed under [start + '/' + finish]: an
    entry under that text is returned without a command, and a call that
    returns leaves an entry there (the map it returned, when the reversed
    pair has another key).  Hence a pair whose key is the key of an earlier
    call is answered from the entry of that call, as [('a/b', 'c')] is after
    [('a', 'b/c')]; and among identifiers without ['/'] equal keys mean
    equal pairs, so a call for a pair that is neither the earlier pair nor
    its reverse finds nothing and computes. *)
Theorem key_clash_needs_slash :
  (forall (env : Env) (self : GitFileHistory) (start finish : string) (m : linemap),
     _line_mappings self !! (start +:+ "/" +:+ finish) = Some m ->
     line_mapping env start finish self = (Ret (m, self), []))
  /\ (forall s1 f1 s2 f2 : string,
        slash_free s1 = true -> slash_free f1 = true ->
        slash_free s2 = true -> slash_free f2 = true ->
        key s1 f1 = key s2 f2 -> (s1, f1) = (s2, f2))
  /\ key "a" "b/c" = key "a/b" "c"
  /\ (forall (env : Env) (self self1 : GitFileHistory) (s1 f1 s2 f2 : string)
             (m : linemap) (cmds : list command),
        key s2 f2 = key s1 f1 ->
        line_mapping env s1 f1 self = (Ret (m, self1), cmds) ->
        exists m' : linemap,
          _line_mappings self1 !! (s1 +:+ "/" +:+ f1) = Some m'
          /\ line_mapping env s1 f1 self1 = (Ret (m', self1), [])
          /\ line_mapping env s2 f2 self1 = (Ret (m', self1), [])
          /\ (key s1 f1 <> key f1 s1 -> m' = m)
          /\ (_line_mappings self !! key s1 f1 = None ->
              exists b : linemap,
                _build_line_mappings env s1 f1 self = (Ret (m, b), cmds)))
  /\ (forall (env : Env) (self self1 : GitFileHistory) (s1 f1 s2 f2 : string)
             (m : linemap) (cmds : list command),
        slash_free s1 = true -> slash_free f1 = true ->
        slash_free s2 = true -> slash_free f2 = true ->
        (s2, f2) <> (s1, f1) -> (s2, f2) <> (f1, s1) ->
        _line_mappings self !! key s2 f2 = None ->
        line_mapping env s1 f1 self = (Ret (m, self1), cmds) ->
        _line_mappings self1 !! key s2 f2 = None
        /\ snd (line_mapping env s2 f2 self1) <> []).
Proof.
  split; [| split; [| split; [reflexivity | split]]].
  - intros env self start finish m H. apply line_mapping_hit. exact H.
  - intros s1 f1 s2 f2 H1 H2 _ _ E.
    destruct (key_inj s1 f1 s2 f2 H1 H2 E) as [-> ->]. reflexivity.
  - intros env self self1 s1 f1 s2 f2 m cmds Hkey Hcall.
    destruct (line_mapping_files env s1 f1 self self1 m cmds Hcall) as (m' & Hown & Hm).
    exists m'. split; [exact Hown |]. split; [| split; [| split]].
    + apply line_mapping_hit. exact Hown.
    + apply line_mapping_hit. rewrite Hkey. exact Hown.
    + exact Hm.
    + intros Hmiss.
      destruct (line_mapping_miss _ _ _ _ _ _ _ Hmiss Hcall) as (b & Hb & _).
      exists b. exact Hb.
  - intros env self self1 s1 f1 s2 f2 m cmds _ _ Hs2 Hf2 Hne1 Hne2 Hmiss Hcall.
    assert (key s2 f2 <> key s1 f1) as N1.
    { intros E. destruct (key_inj s2 f2 s1 f1 Hs2 Hf2 E) as [-> ->]. congruence. }
    assert (key s2 f2 <> key f1 s1) as N2.
    { intros E. destruct (key_inj s2 f2 f1 s1 Hs2 Hf2 E) as [-> ->]. congruence. }
    assert (_line_mappings self1 !! key s2 f2 = None) as Hmiss1.
    { revert Hcall. unfold line_mapping.
      destruct (_line_mappings self !! key s1 f1) as [m0 |].
      - intros [= <- <- <-]. exact Hmiss.
      - destruct (_build_line_mappings env s1 f1 self) as [[[f b] | e |] l];
          simpl; try discriminate.
        intros [= <- <- <-]. simpl.
        rewrite !lookup_insert_ne by congruence. exact Hmiss. }
    split; [exact Hmiss1 | apply line_mapping_miss_runs, Hmiss1].
Qed.

Lemma key_clash_needs_slash_witness :
  (exists (m : linemap) (self1 : GitFileHistory) (cmds : list command),
     line_mapping insert_repo "a" "b/c" (fresh one_commit) = (Ret (m, self1), cmds)
     /\ _line_mappings self1 !! "a/b/c" = Some m
     /\ line_mapping insert_repo "a/b" "c" self1 = (Ret (m, self1), []))
  /\ (exists (m : linemap) (self1 : GitFileHistory) (cmds : list command),
        line_mapping insert_repo "A" "B" (fresh one_commit) = (Ret (m, self1), cmds)
        /\ _line_mappings self1 !! key "A" "C" = None
        /\ snd (line_mapping insert_repo "A" "C" self1) <> []).
Proof.
  destruct key_clash_needs_slash as (_ & _ & _ & Hserved & Hapart).
  split.
  - destruct (line_mapping insert_repo "a" "b/c" (fresh one_commit))
      as [[[m self1] | e |] cmds] eqn:E; try (vm_compute in E; discriminate).
    destruct (Hserved insert_repo (fresh one_commit) self1 "a" "b/c" "a/b" "c" m cmds)
      as (m' & H1 & _ & H2 & Hm & _); [reflexivity | exact E |].
    rewrite (Hm ltac:(discriminate)) in H1, H2.
    exists m, self1, cmds. auto.
  - destruct (line_mapping insert_repo "A" "B" (fresh one_commit))
      as [[[m self1] | e |] cmds] eqn:E; try (vm_compute in E; discriminate).
    destruct (Hapart insert_repo (fresh one_commit) self1 "A" "B" "A" "C" m cmds)
      as (H1 & H2); try reflexivity; try discriminate; [exact E |].
    exists m, self1, cmds. auto.
Defined.

(** * Further properties of the code *)


(** ** The cursor, further *)

(** X4. Inside the history a step that succeeded is undone by the opposite
    step: the cursor, the path, the commits and the mapping cache are again
    what they were, and only the blame cache stays empty. *)
Theorem step_and_back (self : GitFileHistory) :
  in_bounds self ->
  (fst (next self) = true -> prev (snd (next self)) = (true, set_blame None self))
  /\ (fst (prev self) = true -> next (snd (prev self)) = (true, set_blame None self)).
Proof.
  unfold in_bounds, next, prev. intros Hb. split.
  - destruct (Z.leb_spec (_index self) 0) as [H | H]; simpl; [discriminate |].
    intros _. destruct (Z.geb_spec (_index self - 1) (Z.of_nat (length (commits self)) - 1));
      [lia |].
    unfold set_blame, set_index; simpl. rewrite Z.sub_add. reflexivity.
  - destruct (Z.geb_spec (_index self) (Z.of_nat (length (commits self)) - 1)) as [H | H];
      simpl; [discriminate |].
    intros _. destruct (Z.leb_spec (_index self + 1) 0); [lia |].
    unfold set_blame, set_index; simpl. rewrite Z.add_simpl_r. reflexivity.
Qed.

Lemma step_and_back_witness :
  (fst (next (snd (prev (fresh (one_commit ++ one_commit)))))) = true
  /\ prev (snd (next (snd (prev (fresh (one_commit ++ one_commit))))))
     = (true, set_blame None (snd (prev (fresh (one_commit ++ one_commit))))).
Proof.
  split; [reflexivity |].
  assert (in_bounds (snd (prev (fresh (one_commit ++ one_commit))))) as Hb
    by (unfold in_bounds; simpl; lia).
  apply (proj1 (step_and_back _ Hb)). reflexivity.
Defined.

Lemma prev_index (self : GitFileHistory) :
  in_bounds self ->
  _index (snd (prev self))
  = Z.min (_index self + 1) (Z.of_nat (length (commits self)) - 1)
  /\ commits (snd (prev self)) = commits self.
Proof.
  unfold in_bounds, prev. intros Hb.
  destruct (Z.geb_spec (_index self) (Z.of_nat (length (commits self)) - 1));
    simpl; split; try reflexivity; lia.
Qed.

Lemma next_index (self : GitFileHistory) :
  in_bounds self ->
  _index (snd (next self)) = Z.max (_index self - 1) 0
  /\ commits (snd (next self)) = commits self.
Proof.
  unfold in_bounds, next. intros Hb.
  destruct (Z.leb_spec (_index self) 0); simpl; split; try reflexivity; lia.
Qed.

Lemma prevs_index (k : nat) (self : GitFileHistory) :
  in_bounds self ->
  _index (prevs k self)
  = Z.min (_index self + Z.of_nat k) (Z.of_nat (length (commits self)) - 1)
  /\ commits (prevs k self) = commits self.
Proof.
  intros Hb. induction k as [| k [IHi IHc]].
  - simpl. unfold in_bounds in Hb. split; [lia | reflexivity].
  - unfold prevs in *. simpl Nat.iter.
    set (s := Nat.iter k (fun s => snd (prev s)) self) in *.
    assert (in_bounds s) as Hs by (unfold in_bounds in *; rewrite IHc, IHi; lia).
    destruct (prev_index s Hs) as [Hi Hc]. rewrite Hi, Hc, IHi, IHc.
    split; [lia | reflexivity].
Qed.

Lemma nexts_index (k : nat) (self : GitFileHistory) :
  in_bounds self ->
  _index (nexts k self) = Z.max (_index self - Z.of_nat k) 0
  /\ commits (nexts k self) = commits self.
Proof.
  intros Hb. induction k as [| k [IHi IHc]].
  - simpl. unfold in_bounds in Hb. split; [lia | reflexivity].
  - unfold nexts in *. simpl Nat.iter.
    set (s := Nat.iter k (fun s => snd (next s)) self) in *.
    assert (in_bounds s) as Hs by (unfold in_bounds in *; rewrite IHc, IHi; lia).
    destruct (next_index s Hs) as [Hi Hc]. rewrite Hi, Hc, IHi, IHc.
    split; [lia | reflexivity].
Qed.

(** X5. [k] calls of [prev] move the cursor [k] commits back or stop at the
    oldest commit, [k] calls of [next] move it [k] commits forward or stop
    at the newest. *)
Theorem repeated_steps_saturate (k : nat) (self : GitFileHistory) :
  in_bounds self ->
  _index (prevs k self)
  = Z.min (_index self + Z.of_nat k) (Z.of_nat (length (commits self)) - 1)
  /\ _index (nexts k self) = Z.max (_index self - Z.of_nat k) 0.
Proof.
  intros Hb. split; [apply prevs_index | apply nexts_index]; exact Hb.
Qed.

Lemma repeated_steps_saturate_witness :
  _index (prevs 5 (fresh (one_commit ++ one_commit ++ one_commit))) = 2
  /\ _index (nexts 1 (prevs 5 (fresh (one_commit ++ one_commit ++ one_commit)))) = 1.
Proof.
  split.
  - refine (proj1 (repeated_steps_saturate 5
                     (fresh (one_commit ++ one_commit ++ one_commit)) _)).
    unfold in_bounds; simpl; lia.
  - refine (proj2 (repeated_steps_saturate 1
                     (prevs 5 (fresh (one_commit ++ one_commit ++ one_commit))) _)).
    unfold in_bounds; simpl; lia.
Defined.

(** ** Blame, further *)

Lemma step_drops_nothing_else (s : step) (self : GitFileHistory) :
  path (snd (do_step s self)) = path self
  /\ commits (snd (do_step s self)) = commits self
  /\ (fst (do_step s self) = true -> _blame (snd (do_step s self)) = None).
Proof.
  destruct s; simpl; unfold next, prev.
  - destruct (_index self <=? 0); simpl; repeat split; congruence.
  - destruct (_index self >=? _); simpl; repeat split; congruence.
Qed.

Lemma getitem_in_bounds (self : GitFileHistory) :
  in_bounds self ->
  exists c : GitCommit.t,
    commits self !! Z.to_nat (_index self) = Some c
    /\ current_commit self = (Ret c, []).
Proof.
  unfold in_bounds, current_commit, Py.getitem. intros Hb.
  assert ((_index self <? 0) = false) as -> by (apply Z.ltb_ge; lia).
  assert ((_index self <? 0) = false) as -> by (apply Z.ltb_ge; lia).
  destruct (commits self !! Z.to_nat (_index self)) as [c |] eqn:E.
  - exists c. split; reflexivity.
  - apply lookup_ge_None in E. lia.
Qed.

Lemma blame_uncached_log (env : Env) (self : GitFileHistory) (c : GitCommit.t) :
  (_blame self = None \/ _blame self = Some []) ->
  current_commit self = (Ret c, []) ->
  snd (blame env self) = [git_blame (path self) (GitCommit.sha c)]
  /\ fst (blame env self)
     = obind (blame_loop (GitCommit.sha c) []
                (Py.readlines (blame_out env (path self) (GitCommit.sha c))))
         (fun ls => Ret (ls, set_blame (Some ls) self)).
Proof.
  intros Hb Hc. unfold blame.
  assert ((do c0 <- current_commit self;
           exec git_blame (path self) (GitCommit.sha c0);
           do lines <- lift (blame_loop (GitCommit.sha c0) []
                               (Py.readlines (blame_out env (path self) (GitCommit.sha c0))));
           ret (lines, set_blame (Some lines) self))
          = (obind (blame_loop (GitCommit.sha c) []
                      (Py.readlines (blame_out env (path self) (GitCommit.sha c))))
               (fun ls => Ret (ls, set_blame (Some ls) self)),
             [git_blame (path self) (GitCommit.sha c)])) as H.
  { rewrite Hc. simpl. destruct (blame_loop _ _ _); reflexivity. }
  destruct Hb as [-> | ->]; rewrite H; auto.
Qed.

(** X6. After a step that returned [True], [blame] asks [git] for the
    commit the cursor now stands on, whatever was cached before the step. *)
Theorem blame_after_step (env : Env) (s : step) (self : GitFileHistory) :
  in_bounds self ->
  fst (do_step s self) = true ->
  exists c : GitCommit.t,
    commits self !! Z.to_nat (_index (snd (do_step s self))) = Some c
    /\ snd (blame env (snd (do_step s self)))
       = [git_blame (path self) (GitCommit.sha c)].
Proof.
  intros Hb Hmoved.
  destruct (do_step_spec s self Hb) as [_ Hb'].
  destruct (getitem_in_bounds _ Hb') as (c & Hc & Hcur).
  pose proof (step_drops_nothing_else s self) as Hframe.
  exists c. split.
  - destruct Hframe as (_ & Hcommits & _). rewrite <- Hcommits. exact Hc.
  - destruct Hframe as (Hpath & _ & Hblame). rewrite <- Hpath.
    apply blame_uncached_log; [| exact Hcur].
    left. apply Hblame. exact Hmoved.
Qed.

Lemma blame_after_step_witness :
  exists c : GitCommit.t,
    (one_commit ++ one_commit) !! 1%nat = Some c
    /\ snd (blame group_repo (snd (do_step Prev (fresh (one_commit ++ one_commit)))))
       = [git_blame "f" (GitCommit.sha c)].
Proof.
  apply (blame_after_step group_repo Prev (fresh (one_commit ++ one_commit))).
  - unfold in_bounds; simpl; lia.
  - reflexivity.
Defined.

Lemma set_blame_same (self : GitFileHistory) (b : option (list GitBlameLine.t)) :
  _blame self = b -> set_blame b self = self.
Proof. destruct self; simpl. intros ->. reflexivity. Qed.

(** X7. A [blame] that returns changes nothing of the object but the blame
    cache, which then holds the list that was returned; it ran no command
    or the one [git blame] for the current commit. *)
Theorem blame_caches_what_it_returns (env : Env) (self self' : GitFileHistory)
    (ls : list GitBlameLine.t) (cmds : list command) :
  blame env self = (Ret (ls, self'), cmds) ->
  self' = set_blame (Some ls) self
  /\ (cmds = [] \/ exists c : GitCommit.t,
                     current_commit self = (Ret c, [])
                     /\ cmds = [git_blame (path self) (GitCommit.sha c)]).
Proof.
  unfold blame.
  assert (forall b,
            (b = None \/ b = Some []) -> _blame self = b ->
            (do c <- current_commit self;
             exec git_blame (path self) (GitCommit.sha c);
             do lines <- lift (blame_loop (GitCommit.sha c) []
                                 (Py.readlines (blame_out env (path self) (GitCommit.sha c))));
             ret (lines, set_blame (Some lines) self)) = (Ret (ls, self'), cmds) ->
            self' = set_blame (Some ls) self
            /\ (cmds = [] \/ exists c : GitCommit.t,
                               current_commit self = (Ret c, [])
                               /\ cmds = [git_blame (path self) (GitCommit.sha c)])) as Hmiss.
  { intros b _ _. unfold current_commit.
    destruct (Py.getitem (commits self) (_index self)) as [c |]; simpl; [| discriminate].
    destruct (blame_loop _ _ _) as [lines | e |]; simpl; try discriminate.
    intros [= <- <- <-]. split; [reflexivity |]. right. exists c. auto. }
  destruct (_blame self) as [[| l ls0] |] eqn:E.
  - apply (Hmiss (Some [])); auto.
  - intros [= <- <- <-]. split; [| left; reflexivity].
    symmetry. apply set_blame_same. exact E.
  - apply (Hmiss None); auto.
Qed.

Lemma blame_caches_what_it_returns_witness :
  exists (ls : list GitBlameLine.t) (cmds : list command),
    blame group_repo (fresh one_commit)
    = (Ret (ls, set_blame (Some ls) (fresh one_commit)), cmds)
    /\ cmds = [git_blame "f" "c0ffee"].
Proof.
  destruct (blame group_repo (fresh one_commit)) as [[[ls self'] | e |] cmds] eqn:E;
    try (vm_compute in E; discriminate).
  destruct (blame_caches_what_it_returns group_repo (fresh one_commit) self' ls cmds E)
    as [-> _].
  exists ls, cmds. split; [reflexivity |].
  vm_compute in E. injection E as _ _ <-. reflexivity.
Defined.

Lemma readlines_length (s : string) :
  s <> "" -> (0 <? Z.of_nat (length (Py.readlines s))) = true.
Proof.
  intros Hs. destruct (Py.readlines s) as [| l ls] eqn:E.
  - apply readlines_nil in E. contradiction.
  - reflexivity.
Qed.

(** X3. When [git log] prints nothing for a tracked file, [init] returns an
    object without commits: [blame] on it raises [IndexError] before any
    command is run, and neither [next] nor [prev] moves. *)
Theorem empty_history_is_stuck (env : Env) (path start_commit : string) :
  rev_parse_status env start_commit = 0 ->
  ls_files_out env path <> "" ->
  log_out env start_commit path = "" ->
  let self := mkHistory path [] 0 None ∅ in
  init env path start_commit
  = (Ret self, [git_rev_parse start_commit; git_ls_files path;
                git_log start_commit path])
  /\ blame env self = (Raise IndexError, [])
  /\ next self = (false, self) /\ prev self = (false, self).
Proof.
  intros Hrev Hls Hlog. simpl. split; [| repeat split].
  unfold init, verify_revision, verify_file. simpl.
  rewrite Hrev, (readlines_length _ Hls), Hlog. reflexivity.
Qed.

Lemma empty_history_is_stuck_witness :
  init (repo "" "" (fun _ => "") (fun _ _ => "")) "f" "HEAD"
  = (Ret (mkHistory "f" [] 0 None ∅),
     [git_rev_parse "HEAD"; git_ls_files "f"; git_log "HEAD" "f"])
  /\ blame (repo "" "" (fun _ => "") (fun _ _ => "")) (mkHistory "f" [] 0 None ∅)
     = (Raise IndexError, []).
Proof.
  destruct (empty_history_is_stuck (repo "" "" (fun _ => "") (fun _ _ => "")) "f" "HEAD")
    as (H1 & H2 & _); try reflexivity.
  - discriminate.
  - split; assumption.
Defined.

Lemma blame_loop_no_content (current_sha : string) (lines : list GitBlameLine.t)
    (header sha original_line final_line : string) (rest : list string) :
  String.eqb header "" = false ->
  take 3 (Py.split " " header) = [sha; original_line; final_line] ->
  Forall (fun l => Py.startswith Py.TAB l = false) rest ->
  blame_loop current_sha lines (header :: rest) = Diverge.
Proof.
  intros Hne Hfields Hrest. simpl. rewrite Hne, Hfields.
  induction Hrest as [| l rest Hl _ IH]; simpl; [reflexivity |].
  rewrite Hl. exact IH.
Qed.

(** X10. A header with fewer than three fields separated by blanks makes
    the loop raise [ValueError]; a header that no content line follows makes
    it wait for one for ever. *)
Theorem blame_loop_malformed (current_sha : string) (lines : list GitBlameLine.t)
    (header : string) (rest : list string) :
  header <> "" ->
  ((length (Py.split " " header) < 3)%nat ->
   blame_loop current_sha lines (header :: rest) = Raise (ValueError None))
  /\ ((3 <= length (Py.split " " header))%nat ->
      Forall (fun l => Py.startswith Py.TAB l = false) rest ->
      blame_loop current_sha lines (header :: rest) = Diverge).
Proof.
  intros Hne. apply String.eqb_neq in Hne. split.
  - intros Hlen. simpl. rewrite Hne.
    destruct (Py.split " " header) as [| a [| b [| c l]]]; simpl in *;
      try reflexivity; lia.
  - intros Hlen Hrest.
    destruct (Py.split " " header) as [| a [| b [| c l]]] eqn:E; simpl in Hlen;
      try lia.
    eapply blame_loop_no_content; [exact Hne | rewrite E; reflexivity | exact Hrest].
Qed.

Lemma blame_loop_malformed_witness :
  blame_loop "c0ffee" [] ["c0ffee 1" +:+ nl; tab +:+ "a" +:+ nl] = Raise (ValueError None)
  /\ blame_loop "c0ffee" [] ["c0ffee 1 1 1" +:+ nl; "author ann" +:+ nl] = Diverge.
Proof.
  split.
  - apply (proj1 (blame_loop_malformed "c0ffee" [] ("c0ffee 1" +:+ nl)
                    [tab +:+ "a" +:+ nl] ltac:(discriminate))).
    vm_compute. lia.
  - apply (proj2 (blame_loop_malformed "c0ffee" [] ("c0ffee 1 1 1" +:+ nl)
                    ["author ann" +:+ nl] ltac:(discriminate))).
    + vm_compute. lia.
    + repeat constructor.
Defined.

(** ** The line mapper, further *)

Lemma diff_loop_raises (diff_lines : list string) (c : cursors) (e : exn) :
  diff_loop diff_lines c = Raise e -> e = AssertionError \/ e = ValueError None.
Proof.
  revert c. induction diff_lines as [| line rest IH]; intros c; simpl; [discriminate |].
  unfold parse_group at 1.
  destruct (Nat.ltb _ 3); simpl; [intros [= <-]; auto |].
  destruct (Py.split " " line) as [| a [| b [| x l]]]; simpl;
    try (intros [= <-]; auto).
  destruct (Py.int b); simpl; [apply IH | intros [= <-]; auto].
Qed.

Lemma diff_loop_returns_or_raises (diff_lines : list string) (c : cursors) :
  diff_loop diff_lines c <> Diverge.
Proof.
  revert c. induction diff_lines as [| line rest IH]; intros c; simpl; [discriminate |].
  destruct (parse_group line) as [g | e |] eqn:E; simpl; try discriminate; [apply IH |].
  unfold parse_group in E.
  destruct (Nat.ltb _ 3); [discriminate |].
  destruct (Py.split " " line) as [| a [| b [| x l]]]; try discriminate.
  destruct (Py.int b); discriminate.
Qed.

(** X11. [line_mapping] raises only when it computes, only with
    [AssertionError] or [ValueError], and then after the first three commands
    of the pass, the two [git show] and the [diff]; output of [diff] on its
    error stream makes it raise [AssertionError]. *)
Theorem line_mapping_failure (env : Env) (start finish : string)
    (self : GitFileHistory) :
  (forall (e : exn) (cmds : list command),
     line_mapping env start finish self = (Raise e, cmds) ->
     _line_mappings self !! key start finish = None
     /\ cmds = [git_show start (path self); git_show finish (path self);
                diff_fds start finish (path self)]
     /\ (e = AssertionError \/ e = ValueError None))
  /\ fst (line_mapping env start finish self) <> Diverge
  /\ (_line_mappings self !! key start finish = None ->
      snd (diff_out env (show_out env start (path self))
                        (show_out env finish (path self))) <> "" ->
      fst (line_mapping env start finish self) = Raise AssertionError).
Proof.
  unfold line_mapping, _build_line_mappings.
  set (d := diff_out env (show_out env start (path self)) (show_out env finish (path self))).
  destruct (_line_mappings self !! key start finish) as [m |] eqn:Hk.
  - split; [intros e cmds; discriminate |]. split; [discriminate | discriminate].
  - simpl. destruct (String.eqb_spec (snd d) "") as [Herr | Herr]; simpl.
    + destruct (diff_loop (diff_lines_of (fst d)) cursors0) as [c | e0 |] eqn:E; simpl.
      * split; [intros e cmds; discriminate |]. split; [discriminate | contradiction].
      * split; [| split; [discriminate | contradiction]].
        intros e cmds [= <- <-]. split; [reflexivity |]. split; [reflexivity |].
        eapply diff_loop_raises. exact E.
      * exfalso. eapply diff_loop_returns_or_raises. exact E.
    + split; [| split; [discriminate | reflexivity]].
      intros e cmds [= <- <-]. auto.
Qed.

(** X12. A line of the diff output that parses and whose count is not
    positive, or whose letter is none of [u], [o], [n], is passed over: the
    loop goes on as if the line were not there. *)
Theorem group_without_effect (line typ : string) (num_lines : Z)
    (rest : list string) (c : cursors) :
  parse_group line = Ret (typ, num_lines) ->
  num_lines <= 0 \/ (typ <> "u" /\ typ <> "o" /\ typ <> "n") ->
  diff_loop (line :: rest) c = diff_loop rest c.
Proof.
  intros Hp Hno. simpl. rewrite Hp. simpl. f_equal. unfold group.
  destruct Hno as [Hn | (Hu & Ho & Hn)].
  - replace (Z.to_nat num_lines) with 0%nat by lia. simpl.
    destruct (String.eqb typ "u"), (String.eqb typ "o"), (String.eqb typ "n");
      reflexivity.
  - apply String.eqb_neq in Hu, Ho, Hn. rewrite Hu, Ho, Hn. reflexivity.
Qed.

Lemma group_without_effect_witness :
  diff_loop ["x 5"; "u -3"; "u 1"] cursors0 = diff_loop ["u 1"] cursors0.
Proof.
  rewrite (group_without_effect "x 5" "x" 5 ["u -3"; "u 1"] cursors0);
    [| reflexivity | right; repeat split; discriminate].
  apply (group_without_effect "u -3" "u" (-3) ["u 1"] cursors0);
    [reflexivity | left; lia].
Defined.


Lemma shaped_start : shaped cursors0.
Proof.
  unfold shaped, cursors0; simpl.
  split; [lia |]. split; [lia |].
  split; [intros i; rewrite lookup_empty; split; [intros [x Hx]; discriminate | lia] |].
  split; [intros j; rewrite lookup_empty; split; [intros [x Hx]; discriminate | lia] |].
  split; intros *; rewrite lookup_empty; discriminate.
Qed.

Lemma segment_insert (m : linemap) (n : Z) (v : option Z) :
  0 <= n ->
  (forall i : Z, is_Some (m !! i) <-> 0 <= i < n) ->
  forall i : Z, is_Some (<[n := v]> m !! i) <-> 0 <= i < n + 1.
Proof.
  intros Hn H i. destruct (decide (n = i)) as [<- | Hne].
  - rewrite lookup_insert_eq. split; [lia | eauto].
  - rewrite lookup_insert_ne by exact Hne. rewrite H. lia.
Qed.

Lemma shaped_unchanged_line (c : cursors) : shaped c -> shaped (unchanged_line c).
Proof.
  intros (Hs & Hf & Hdf & Hdb & Hval & Hmono). unfold shaped, unchanged_line; simpl.
  split; [lia |]. split; [lia |].
  split; [apply segment_insert; assumption |].
  split; [apply segment_insert; assumption |].
  split.
  - intros i j. destruct (decide (start_ln c = i)) as [<- | Hi].
    + rewrite lookup_insert_eq. intros [= <-]. lia.
    + rewrite lookup_insert_ne by exact Hi. intros H. apply Hval in H. lia.
  - intros i j i' j'.
    destruct (decide (start_ln c = i)) as [<- | Hi];
      destruct (decide (start_ln c = i')) as [<- | Hi'];
      rewrite ?lookup_insert_eq, ?lookup_insert_ne by assumption.
    + intros _ _ Hlt. lia.
    + intros _ H' Hlt.
      assert (0 <= i' < start_ln c) by (apply Hdf; rewrite H'; eauto). lia.
    + intros H [= <-] _. apply Hval in H. lia.
    + apply Hmono.
Qed.

Lemma shaped_old_line (c : cursors) : shaped c -> shaped (old_line c).
Proof.
  intros (Hs & Hf & Hdf & Hdb & Hval & Hmono). unfold shaped, old_line; simpl.
  split; [lia |]. split; [lia |].
  split; [apply segment_insert; assumption |].
  split; [exact Hdb |].
  split.
  - intros i j. destruct (decide (start_ln c = i)) as [<- | Hi].
    + rewrite lookup_insert_eq. discriminate.
    + rewrite lookup_insert_ne by exact Hi. apply Hval.
  - intros i j i' j'.
    destruct (decide (start_ln c = i)) as [<- | Hi];
      [rewrite lookup_insert_eq; discriminate |].
    destruct (decide (start_ln c = i')) as [<- | Hi'];
      [rewrite (lookup_insert_eq _ (start_ln c)); discriminate |].
    rewrite !lookup_insert_ne by assumption. apply Hmono.
Qed.

Lemma shaped_new_line (c : cursors) : shaped c -> shaped (new_line c).
Proof.
  intros (Hs & Hf & Hdf & Hdb & Hval & Hmono). unfold shaped, new_line; simpl.
  split; [lia |]. split; [lia |].
  split; [exact Hdf |].
  split; [apply segment_insert; assumption |].
  split; [| exact Hmono].
  intros i j H. apply Hval in H. lia.
Qed.

Lemma shaped_group (typ : string) (num_lines : Z) (c : cursors) :
  shaped c -> shaped (group typ num_lines c).
Proof.
  intros H. unfold group.
  destruct (String.eqb typ "u");
    [apply iter_preserves; auto using shaped_unchanged_line |].
  destruct (String.eqb typ "o");
    [apply iter_preserves; auto using shaped_old_line |].
  destruct (String.eqb typ "n");
    [apply iter_preserves; auto using shaped_new_line | exact H].
Qed.

Lemma shaped_diff_loop (diff_lines : list string) (c c' : cursors) :
  diff_loop diff_lines c = Ret c' -> shaped c -> shaped c'.
Proof.
  revert c. induction diff_lines as [| line rest IH]; intros c; simpl.
  - intros [= <-]. auto.
  - destruct (parse_group line) as [[typ n] | e |]; simpl; try discriminate.
    intros H Hc. eapply IH; [exact H | apply shaped_group; exact Hc].
Qed.

Lemma shaped_stretch_loop (fuel : nat) (start_len finish_len : Z) (c : cursors) :
  shaped c -> shaped (stretch_loop fuel start_len finish_len c).
Proof.
  revert c. induction fuel as [| fuel IH]; intros c Hc; simpl; [exact Hc |].
  destruct ((start_ln c <=? start_len) && (finish_ln c <=? finish_len));
    [apply IH, shaped_unchanged_line, Hc | exact Hc].
Qed.

Lemma build_shaped (env : Env) (start finish : string) (self : GitFileHistory)
    (f b : linemap) (cmds : list command) :
  _build_line_mappings env start finish self = (Ret (f, b), cmds) ->
  exists c : cursors,
    shaped c /\ f = forward c /\ b = backward c
    /\ (start_ln c <=? Z.of_nat (length (Py.readlines (show_out env start (path self)))))
       && (finish_ln c <=? Z.of_nat (length (Py.readlines (show_out env finish (path self)))))
       = false.
Proof.
  intros H. apply build_returns in H as (_ & c & Hloop & _ & Hf & Hb).
  eexists. split; [| split; [exact Hf | split; [exact Hb | apply stretch_exits]]].
  apply shaped_stretch_loop. eapply shaped_diff_loop; [exact Hloop | apply shaped_start].
Qed.

(** X13. The two maps of a computation that returns are defined on an
    initial segment of the line numbers each, without a gap and without a
    negative key; the values that are not [None] are keys of the other map;
    and one of the two segments reaches past the end of its file. *)
Theorem mapping_has_no_gap (env : Env) (start finish : string)
    (self : GitFileHistory) (f b : linemap) (cmds : list command) :
  _build_line_mappings env start finish self = (Ret (f, b), cmds) ->
  exists s t : Z,
    (forall i : Z, is_Some (f !! i) <-> 0 <= i < s)
    /\ (forall j : Z, is_Some (b !! j) <-> 0 <= j < t)
    /\ (forall i j : Z, f !! i = Some (Some j) -> 0 <= j < t)
    /\ (forall i j : Z, b !! j = Some (Some i) -> 0 <= i < s)
    /\ (Z.of_nat (length (Py.readlines (show_out env start (path self)))) < s
        \/ Z.of_nat (length (Py.readlines (show_out env finish (path self)))) < t).
Proof.
  intros H. pose proof (build_inverse _ _ _ _ _ _ _ H) as Hinv.
  apply build_shaped in H as (c & (Hs & Hf & Hdf & Hdb & Hval & _) & -> & -> & Hexit).
  exists (start_ln c), (finish_ln c).
  split; [exact Hdf |]. split; [exact Hdb |]. split; [exact Hval |]. split.
  - intros i j Hb. apply Hdf. apply Hinv in Hb. rewrite Hb. eauto.
  - apply andb_false_iff in Hexit as [E | E]; apply Z.leb_gt in E; auto.
Qed.

Lemma mapping_has_no_gap_witness :
  exists (f b : linemap) (s t : Z),
    fst (_build_line_mappings clash_repo "a" "a/a" (fresh one_commit)) = Ret (f, b)
    /\ (forall i : Z, is_Some (f !! i) <-> 0 <= i < s)
    /\ (forall j : Z, is_Some (b !! j) <-> 0 <= j < t).
Proof.
  destruct (_build_line_mappings clash_repo "a" "a/a" (fresh one_commit))
    as [[[f b] | e |] cmds] eqn:E; try (vm_compute in E; discriminate).
  destruct (mapping_has_no_gap _ _ _ _ _ _ _ E) as (s & t & H1 & H2 & _).
  exists f, b, s, t. auto.
Defined.

(** X14. Both maps keep the order of the lines they do not delete. *)
Theorem mapping_keeps_order (env : Env) (start finish : string)
    (self : GitFileHistory) (f b : linemap) (cmds : list command) :
  _build_line_mappings env start finish self = (Ret (f, b), cmds) ->
  (forall i j i' j' : Z,
     f !! i = Some (Some j) -> f !! i' = Some (Some j') -> i < i' -> j < j')
  /\ (forall i j i' j' : Z,
        b !! j = Some (Some i) -> b !! j' = Some (Some i') -> j < j' -> i < i').
Proof.
  intros H. pose proof (build_inverse _ _ _ _ _ _ _ H) as Hinv.
  apply build_shaped in H as (c & (_ & _ & _ & _ & _ & Hmono) & -> & -> & _).
  split; [exact Hmono |].
  intros i j i' j' Hj Hj' Hlt. apply Hinv in Hj, Hj'.
  destruct (Z.lt_trichotomy i i') as [Hi | [-> | Hi]]; [exact Hi | |].
  - rewrite Hj in Hj'. injection Hj' as ->. lia.
  - pose proof (Hmono _ _ _ _ Hj' Hj Hi). lia.
Qed.

Lemma mapping_keeps_order_witness :
  exists f b : linemap,
    fst (_build_line_mappings insert_repo "A" "B" (fresh one_commit)) = Ret (f, b)
    /\ (forall i j i' j' : Z,
          f !! i = Some (Some j) -> f !! i' = Some (Some j') -> i < i' -> j < j').
Proof.
  destruct (_build_line_mappings insert_repo "A" "B" (fresh one_commit))
    as [[[f b] | e |] cmds] eqn:E; try (vm_compute in E; discriminate).
  destruct (mapping_keeps_order _ _ _ _ _ _ _ E) as [H1 _].
  exists f, b. auto.
Defined.

Lemma iter_unchanged_cursors (k : nat) (c : cursors) :
  start_ln (Nat.iter k unchanged_line c) = start_ln c + Z.of_nat k
  /\ finish_ln (Nat.iter k unchanged_line c) = finish_ln c + Z.of_nat k.
Proof.
  induction k as [| k [IH1 IH2]]; simpl Nat.iter; [simpl; lia |].
  unfold unchanged_line at 1 3. simpl. lia.
Qed.

Lemma iter_old_cursors (k : nat) (c : cursors) :
  start_ln (Nat.iter k old_line c) = start_ln c + Z.of_nat k
  /\ finish_ln (Nat.iter k old_line c) = finish_ln c.
Proof.
  induction k as [| k [IH1 IH2]]; simpl Nat.iter; [simpl; lia |].
  unfold old_line at 1 3. simpl. lia.
Qed.

Lemma iter_new_cursors (k : nat) (c : cursors) :
  start_ln (Nat.iter k new_line c) = start_ln c
  /\ finish_ln (Nat.iter k new_line c) = finish_ln c + Z.of_nat k.
Proof.
  induction k as [| k [IH1 IH2]]; simpl Nat.iter; [simpl; lia |].
  unfold new_line at 1 3. simpl. lia.
Qed.

Lemma group_cursors (typ : string) (num_lines : Z) (c : cursors) :
  start_ln (group typ num_lines c)
  = start_ln c + (if String.eqb typ "u" || String.eqb typ "o"
                  then Z.max 0 num_lines else 0)
  /\ finish_ln (group typ num_lines c)
     = finish_ln c + (if String.eqb typ "u" || String.eqb typ "n"
                      then Z.max 0 num_lines else 0).
Proof.
  unfold group.
  destruct (String.eqb_spec typ "u") as [-> | Hu]; simpl.
  { destruct (iter_unchanged_cursors (Z.to_nat num_lines) c). lia. }
  destruct (String.eqb_spec typ "o") as [-> | Ho]; simpl.
  { destruct (iter_old_cursors (Z.to_nat num_lines) c). lia. }
  destruct (String.eqb_spec typ "n") as [-> | Hn]; simpl.
  { destruct (iter_new_cursors (Z.to_nat num_lines) c). lia. }
  lia.
Qed.

Lemma groups_loop_cursors (groups : list (string * Z)) (c : cursors) :
  start_ln (groups_loop groups c) = start_ln c + left_lines groups
  /\ finish_ln (groups_loop groups c) = finish_ln c + right_lines groups.
Proof.
  revert c. induction groups as [| g gs IH]; intros c; simpl; [lia |].
  destruct (IH (group (fst g) (snd g) c)) as [H1 H2].
  destruct (group_cursors (fst g) (snd g) c) as [G1 G2].
  unfold groups_loop in *. rewrite H1, H2, G1, G2. lia.
Qed.

Lemma shaped_groups_loop (groups : list (string * Z)) (c : cursors) :
  shaped c -> shaped (groups_loop groups c).
Proof.
  revert c. induction groups as [| g gs IH]; intros c Hc; simpl; [exact Hc |].
  apply IH, shaped_group, Hc.
Qed.

Lemma stretch_once (start_len finish_len : Z) (c : cursors) :
  start_ln c = start_len -> finish_ln c = finish_len ->
  stretch start_len finish_len c = unchanged_line c.
Proof.
  intros Hs Hf. unfold stretch. rewrite Hs.
  replace (Z.to_nat (start_len - start_len + 1)) with 1%nat by lia.
  simpl. rewrite Hs, Hf, !Z.leb_refl. reflexivity.
Qed.

(** X15. When the groups of the diff account for every line of both files,
    the forward map is defined exactly on [0 .. start_len] and the backward
    map on [0 .. finish_len]; the two entries at the lengths map the ends of
    the files to each other, and every other entry is the one the groups
    gave. *)
Theorem mapping_of_full_diff (env : Env) (start finish : string)
    (self : GitFileHistory) (out : string) (groups : list (string * Z)) :
  let start_len := Z.of_nat (length (Py.readlines (show_out env start (path self)))) in
  let finish_len := Z.of_nat (length (Py.readlines (show_out env finish (path self)))) in
  diff_out env (show_out env start (path self)) (show_out env finish (path self))
  = (out, "") ->
  parse_groups (diff_lines_of out) = Ret groups ->
  left_lines groups = start_len ->
  right_lines groups = finish_len ->
  exists f b : linemap,
    _build_line_mappings env start finish self
    = (Ret (f, b), one_pass start finish (path self))
    /\ (forall i : Z, is_Some (f !! i) <-> 0 <= i <= start_len)
    /\ (forall j : Z, is_Some (b !! j) <-> 0 <= j <= finish_len)
    /\ f !! start_len = Some (Some finish_len)
    /\ b !! finish_len = Some (Some start_len)
    /\ (forall i : Z, i <> start_len ->
          f !! i = forward (groups_loop groups cursors0) !! i)
    /\ (forall j : Z, j <> finish_len ->
          b !! j = backward (groups_loop groups cursors0) !! j).
Proof.
  intros start_len finish_len Hd Hp Hl Hr.
  set (c := groups_loop groups cursors0).
  destruct (groups_loop_cursors groups cursors0) as [Hs Hf]. fold c in Hs, Hf.
  simpl in Hs, Hf. rewrite Hl in Hs. rewrite Hr in Hf.
  pose proof (shaped_groups_loop groups cursors0 shaped_start) as Hc. fold c in Hc.
  destruct Hc as (_ & _ & Hdf & Hdb & _).
  exists (forward (unchanged_line c)), (backward (unchanged_line c)).
  split.
  { unfold _build_line_mappings. rewrite Hd. simpl.
    rewrite (diff_loop_parsed _ _ _ Hp). simpl. fold c start_len finish_len.
    rewrite (stretch_once start_len finish_len c Hs Hf). reflexivity. }
  unfold unchanged_line; simpl. rewrite Hs, Hf.
  split.
  { intros i. destruct (decide (start_len = i)) as [<- | Hne].
    - rewrite lookup_insert_eq. split; [lia | eauto].
    - rewrite lookup_insert_ne by exact Hne. rewrite Hdf, Hs. lia. }
  split.
  { intros j. destruct (decide (finish_len = j)) as [<- | Hne].
    - rewrite lookup_insert_eq. split; [lia | eauto].
    - rewrite lookup_insert_ne by exact Hne. rewrite Hdb, Hf. lia. }
  split; [apply lookup_insert_eq |]. split; [apply lookup_insert_eq |].
  split; intros k Hk; apply lookup_insert_ne; intros E; apply Hk; symmetry; exact E.
Qed.

Lemma mapping_of_full_diff_witness :
  exists f b : linemap,
    _build_line_mappings clash_repo "a" "a/a" (fresh one_commit)
    = (Ret (f, b), one_pass "a" "a/a" "f")
    /\ f !! 2 = Some (Some 1) /\ b !! 1 = Some (Some 2).
Proof.
  destruct (mapping_of_full_diff clash_repo "a" "a/a" (fresh one_commit)
              ("o 1" +:+ nl +:+ "u 1" +:+ nl) [("o", 1); ("u", 1)])
    as (f & b & H & _ & _ & Hf & Hb & _); try reflexivity.
  exists f, b. auto.
Defined.

(** X17. A [line_mapping] that returns changes nothing of the object but
    the mapping cache, and of the cache at most the entries under the two
    keys of its pair; it ran no command or one pass. *)
Theorem line_mapping_touches_two_keys (env : Env) (start finish : string)
    (self self' : GitFileHistory) (m : linemap) (cmds : list command) :
  line_mapping env start finish self = (Ret (m, self'), cmds) ->
  self' = set_line_mappings (_line_mappings self') self
  /\ (forall k : string, k <> key start finish -> k <> key finish start ->
        _line_mappings self' !! k = _line_mappings self !! k)
  /\ is_Some (_line_mappings self' !! key start finish)
  /\ (cmds = [] \/ cmds = one_pass start finish (path self)).
Proof.
  unfold line_mapping.
  destruct (_line_mappings self !! key start finish) as [m0 |] eqn:E.
  - intros [= <- <- <-]. split; [destruct self; reflexivity |].
    split; [reflexivity |]. split; [rewrite E; eauto | left; reflexivity].
  - destruct (_build_line_mappings env start finish self) as [[[f b] | e |] l] eqn:B;
      simpl; try discriminate.
    intros [= <- <- <-]. simpl. split; [reflexivity |]. split; [| split].
    + intros k H1 H2. rewrite !lookup_insert_ne by congruence. reflexivity.
    + destruct (decide (key finish start = key start finish)) as [Heq | Hne].
      * rewrite Heq, lookup_insert_eq. eauto.
      * rewrite lookup_insert_ne by exact Hne. rewrite lookup_insert_eq. eauto.
    + right. rewrite app_nil_r. apply (build_returns _ _ _ _ _ _ _ B).
Qed.

Lemma line_mapping_touches_two_keys_witness :
  exists (m : linemap) (self' : GitFileHistory),
    fst (line_mapping insert_repo "A" "B" (fresh one_commit)) = Ret (m, self')
    /\ forall k : string, k <> key "A" "B" -> k <> key "B" "A" ->
         _line_mappings self' !! k = None.
Proof.
  destruct (line_mapping insert_repo "A" "B" (fresh one_commit))
    as [[[m self'] | e |] cmds] eqn:E; try (vm_compute in E; discriminate).
  destruct (line_mapping_touches_two_keys _ _ _ _ _ _ _ E) as (_ & H & _).
  exists m, self'. split; [reflexivity |].
  intros k H1 H2. rewrite (H k H1 H2). reflexivity.
Defined.


Lemma build_mirrored_witness :
  exists f b : linemap,
    _build_line_mappings swap_repo "a" "b" (fresh one_commit)
    = (Ret (f, b), one_pass "a" "b" "f")
    /\ _build_line_mappings swap_repo "b" "a" (fresh one_commit)
       = (Ret (b, f), one_pass "b" "a" "f").
Proof.
  destruct (build_mirrored swap_repo "a" "b" (fresh one_commit)
              ("o 1" +:+ nl +:+ "u 1" +:+ nl) ("n 1" +:+ nl +:+ "u 1" +:+ nl)
              [("o", 1); ("u", 1)])
    as (f & b & H1 & H2); try reflexivity.
  exists f, b. split; assumption.
Defined.

Lemma blame_twice_witness :
  exists (l : GitBlameLine.t) (ls : list GitBlameLine.t) (self1 : GitFileHistory),
    fst (blame group_repo (fresh one_commit)) = Ret (l :: ls, self1)
    /\ blame group_repo self1 = (Ret (l :: ls, self1), []).
Proof.
  destruct (blame group_repo (fresh one_commit)) as [[[[| l ls] self1] | e |] cmds] eqn:E;
    try (vm_compute in E; discriminate).
  exists l, ls, self1. split; [reflexivity |].
  exact (blame_twice group_repo (fresh one_commit) self1 l ls cmds E).
Defined.


(** ** Reading the log *)

Lemma prefix_cons (a : ascii) (p : string) (c : ascii) (s : string) :
  String.prefix (String a p) (String c s)
  = if Ascii.eqb a c then String.prefix p s else false.
Proof.
  change (String.prefix (String a p) (String c s))
    with (if Ascii.ascii_dec a c then String.prefix p s else false).
  destruct (Ascii.ascii_dec a c) as [-> | Hne].
  - rewrite Ascii.eqb_refl. reflexivity.
  - apply Ascii.eqb_neq in Hne. rewrite Hne. reflexivity.
Qed.

Lemma split_go_none (sep cur : string) (c : ascii) (s : string) :
  Py.split_go sep None 0 cur (String c s)
  = if String.prefix sep (String c s)
    then cur :: Py.split_go sep None (Nat.pred (String.length sep)) "" s
    else Py.split_go sep None 0 (cur +:+ String c "") s.
Proof. reflexivity. Qed.

Lemma split_go_some (sep : string) (k : nat) (cur : string) (c : ascii) (s : string) :
  Py.split_go sep (Some (S k)) 0 cur (String c s)
  = if String.prefix sep (String c s)
    then cur :: Py.split_go sep (Some k) (Nat.pred (String.length sep)) "" s
    else Py.split_go sep (Some (S k)) 0 (cur +:+ String c "") s.
Proof. reflexivity. Qed.

Lemma split_go_spent (sep cur s : string) :
  Py.split_go sep (Some O) 0 cur s = [cur +:+ s].
Proof.
  revert cur. induction s as [| c s IH]; intros cur.
  - rewrite append_nil_r. reflexivity.
  - change (Py.split_go sep (Some O) 0 cur (String c s))
      with (Py.split_go sep (Some O) 0 (cur +:+ String c "") s).
    rewrite IH, append_assoc. reflexivity.
Qed.

Lemma eqb_LF_false (c : ascii) :
  negb (Ascii.eqb c Py.LF) = true -> Ascii.eqb Py.LF c = false.
Proof.
  intros H. apply negb_true_iff in H. rewrite Ascii.eqb_sym. exact H.
Qed.

(** Text without a newline holds no blank line. *)
Lemma split_blank_plain (w cur rest : string) :
  no_newline w = true ->
  Py.split_go (nl +:+ nl) None 0 cur (w +:+ rest)
  = Py.split_go (nl +:+ nl) None 0 (cur +:+ w) rest.
Proof.
  revert cur. induction w as [| c w IH]; intros cur Hw; str_simpl.
  - rewrite append_nil_r. reflexivity.
  - simpl in Hw. apply andb_true_iff in Hw as [Hc Hw].
    rewrite split_go_none. unfold nl at 1. str_simpl.
    rewrite prefix_cons, (eqb_LF_false c Hc).
    rewrite IH by exact Hw. rewrite append_assoc. reflexivity.
Qed.

Lemma first_char (w : string) :
  no_newline w = true -> w <> "" ->
  exists (c : ascii) (w' : string),
    w = String c w' /\ negb (Ascii.eqb c Py.LF) = true /\ no_newline w' = true.
Proof.
  destruct w as [| c w']; [congruence |]. simpl. intros H _.
  apply andb_true_iff in H as [Hc Hw]. eauto.
Qed.

(** One newline before text is not a blank line. *)
Lemma split_blank_single (w cur rest : string) :
  no_newline w = true -> w <> "" ->
  Py.split_go (nl +:+ nl) None 0 cur (nl +:+ w +:+ rest)
  = Py.split_go (nl +:+ nl) None 0 (cur +:+ nl +:+ w) rest.
Proof.
  intros Hw Hne. destruct (first_char w Hw Hne) as (c & w' & -> & Hc & Hw').
  rewrite <- (append_assoc cur nl (String c w')).
  rewrite <- (split_blank_plain (String c w') (cur +:+ nl) rest) by exact Hw.
  unfold nl. str_simpl. rewrite split_go_none.
  rewrite !prefix_cons, Ascii.eqb_refl, (eqb_LF_false c Hc). reflexivity.
Qed.

(** Two newlines end the piece. *)
Lemma split_blank_double (cur rest : string) :
  Py.split_go (nl +:+ nl) None 0 cur (nl +:+ nl +:+ rest)
  = cur :: Py.split_go (nl +:+ nl) None 0 "" rest.
Proof.
  unfold nl. str_simpl. rewrite split_go_none.
  rewrite !prefix_cons, !Ascii.eqb_refl, prefix_nil. reflexivity.
Qed.

Lemma split_line_plain (w : string) (k : nat) (cur rest : string) :
  no_newline w = true ->
  Py.split_go nl (Some (S k)) 0 cur (w +:+ nl +:+ rest)
  = (cur +:+ w) :: Py.split_go nl (Some k) 0 "" rest.
Proof.
  revert cur. induction w as [| c w IH]; intros cur Hw; str_simpl.
  - rewrite append_nil_r. unfold nl. str_simpl. rewrite split_go_some.
    rewrite prefix_cons, Ascii.eqb_refl, prefix_nil. reflexivity.
  - simpl in Hw. apply andb_true_iff in Hw as [Hc Hw].
    rewrite split_go_some. unfold nl at 1.
    rewrite prefix_cons, (eqb_LF_false c Hc).
    rewrite IH by exact Hw. rewrite append_assoc. reflexivity.
Qed.

Lemma split_line_last (w : string) (k : nat) (cur : string) :
  no_newline w = true ->
  Py.split_go nl (Some k) 0 cur w = [cur +:+ w].
Proof.
  destruct k as [| k]; [intros _; apply split_go_spent |].
  revert cur. induction w as [| c w IH]; intros cur Hw.
  - rewrite append_nil_r. reflexivity.
  - simpl in Hw. apply andb_true_iff in Hw as [Hc Hw].
    rewrite split_go_some. unfold nl at 1.
    rewrite prefix_cons, (eqb_LF_false c Hc).
    rewrite IH by exact Hw. rewrite append_assoc. reflexivity.
Qed.

(** The piece of the log that holds one commit. *)
Lemma split_log_entry (c : GitCommit.t) (rest : string) :
  plain_commit c ->
  Py.split (nl +:+ nl) (log_entry c rest)
  = (GitCommit.sha c +:+ nl +:+ GitCommit.author c +:+ nl +:+ GitCommit.message c)
      :: Py.split (nl +:+ nl) rest.
Proof.
  intros (Hs & Ha & Hane & Hm & Hmne).
  unfold Py.split, log_entry.
  rewrite split_blank_plain by exact Hs.
  rewrite split_blank_single by assumption.
  rewrite split_blank_single by assumption.
  rewrite split_blank_double.
  rewrite !append_assoc. reflexivity.
Qed.

Lemma make_commit_plain (c : GitCommit.t) :
  plain_commit c ->
  make_commit (GitCommit.sha c +:+ nl +:+ GitCommit.author c +:+ nl +:+ GitCommit.message c)
  = Ret c.
Proof.
  intros (Hs & Ha & _ & Hm & _). unfold make_commit, Py.splitn.
  change (String Py.LF "") with nl.
  rewrite split_line_plain by exact Hs.
  rewrite split_line_plain by exact Ha.
  rewrite split_line_last by exact Hm.
  destruct c; reflexivity.
Qed.

Lemma log_chunk_not_empty (a b : string) : String.eqb (a +:+ nl +:+ b) "" = false.
Proof. unfold nl. str_simpl. apply append_not_empty. Qed.

Lemma make_commits_log (cs : list GitCommit.t) (tail : string) :
  Forall plain_commit cs ->
  make_commits (Py.split (nl +:+ nl) (fold_right log_entry tail cs))
  = obind (make_commits (Py.split (nl +:+ nl) tail)) (fun xs => Ret (cs ++ xs)).
Proof.
  intros Hcs. induction Hcs as [| c cs Hc _ IH]; simpl fold_right.
  - destruct (make_commits _); reflexivity.
  - rewrite split_log_entry by exact Hc. simpl make_commits.
    rewrite log_chunk_not_empty, make_commit_plain by exact Hc. simpl.
    rewrite IH. destruct (make_commits (Py.split (nl +:+ nl) tail)); reflexivity.
Qed.

(** X1. When the revision resolves, the file is tracked and [git log]
    prints the entries of the commits [cs], [init] returns the object whose
    history is [cs], in that order, with the cursor on the first of them and
    both caches empty. *)
Theorem init_reads_log (env : Env) (path start_commit : string)
    (cs : list GitCommit.t) :
  rev_parse_status env start_commit = 0 ->
  ls_files_out env path <> "" ->
  log_out env start_commit path = log_text cs ->
  Forall plain_commit cs ->
  init env path start_commit
  = (Ret (mkHistory path cs 0 None ∅),
     [git_rev_parse start_commit; git_ls_files path; git_log start_commit path]).
Proof.
  intros Hrev Hls Hlog Hcs.
  unfold init, verify_revision, verify_file. simpl.
  rewrite Hrev, (readlines_length _ Hls), Hlog. simpl.
  change (String Py.LF (String Py.LF "")) with (nl +:+ nl).
  unfold log_text. rewrite (make_commits_log cs "" Hcs). simpl.
  rewrite app_nil_r. reflexivity.
Qed.

Lemma init_reads_log_witness :
  init (repo (log_text [GitCommit.mk "c0ffee" "ann" "second"; GitCommit.mk "beef" "bob" "first"])
             "" (fun _ => "") (fun _ _ => "")) "f" "HEAD"
  = (Ret (mkHistory "f" [GitCommit.mk "c0ffee" "ann" "second"; GitCommit.mk "beef" "bob" "first"]
            0 None ∅),
     [git_rev_parse "HEAD"; git_ls_files "f"; git_log "HEAD" "f"]).
Proof.
  apply (init_reads_log
           (repo (log_text [GitCommit.mk "c0ffee" "ann" "second";
                            GitCommit.mk "beef" "bob" "first"])
                 "" (fun _ => "") (fun _ _ => "")) "f" "HEAD").
  - reflexivity.
  - discriminate.
  - reflexivity.
  - repeat constructor; discriminate.
Defined.

Lemma make_commit_two_pieces (a b : string) :
  no_newline a = true -> no_newline b = true ->
  make_commit (a +:+ nl +:+ b) = Raise TypeError.
Proof.
  intros Ha Hb. unfold make_commit, Py.splitn.
  change (String Py.LF "") with nl.
  rewrite split_line_plain by exact Ha.
  rewrite split_line_last by exact Hb. reflexivity.
Qed.

(** X2. A commit whose subject line is empty, anywhere in the log, makes
    [init] raise [TypeError]: the blank line that ends the author line cuts
    the entry in two pieces, and [GitCommit] wants three. *)
Theorem init_empty_subject (env : Env) (path start_commit : string)
    (cs : list GitCommit.t) (sha author rest : string) :
  rev_parse_status env start_commit = 0 ->
  ls_files_out env path <> "" ->
  Forall plain_commit cs ->
  no_newline sha = true -> no_newline author = true -> author <> "" ->
  log_out env start_commit path
  = fold_right log_entry (log_entry (GitCommit.mk sha author "") rest) cs ->
  init env path start_commit
  = (Raise TypeError,
     [git_rev_parse start_commit; git_ls_files path; git_log start_commit path]).
Proof.
  intros Hrev Hls Hcs Hs Ha Hane Hlog.
  unfold init, verify_revision, verify_file. simpl.
  rewrite Hrev, (readlines_length _ Hls), Hlog. simpl.
  change (String Py.LF (String Py.LF "")) with (nl +:+ nl).
  rewrite (make_commits_log cs _ Hcs).
  assert (Py.split (nl +:+ nl) (log_entry (GitCommit.mk sha author "") rest)
          = (sha +:+ nl +:+ author) :: Py.split (nl +:+ nl) (nl +:+ rest)) as Hsplit.
  { unfold Py.split, log_entry. simpl GitCommit.sha. simpl GitCommit.author.
    simpl GitCommit.message. rewrite append_nil_l.
    rewrite split_blank_plain by exact Hs.
    rewrite split_blank_single by assumption.
    rewrite split_blank_double. rewrite !append_assoc. reflexivity. }
  rewrite Hsplit. simpl make_commits.
  rewrite log_chunk_not_empty, make_commit_two_pieces by assumption.
  reflexivity.
Qed.

Lemma init_empty_subject_witness :
  init (repo ("c0ffee" +:+ nl +:+ "ann" +:+ nl +:+ nl +:+ nl) "" (fun _ => "") (fun _ _ => ""))
       "f" "HEAD"
  = (Raise TypeError, [git_rev_parse "HEAD"; git_ls_files "f"; git_log "HEAD" "f"]).
Proof.
  apply (init_empty_subject
           (repo ("c0ffee" +:+ nl +:+ "ann" +:+ nl +:+ nl +:+ nl) ""
                 (fun _ => "") (fun _ _ => "")) "f" "HEAD" [] "c0ffee" "ann" "");
    try reflexivity; try discriminate. constructor.
Defined.


(** ** Reading the blame output *)

Lemma readlines_go_line (body cur rest : string) :
  no_newline body = true ->
  Py.readlines_go cur (body +:+ nl +:+ rest)
  = (cur +:+ body +:+ nl) :: Py.readlines_go "" rest.
Proof.
  revert cur. induction body as [| c body IH]; intros cur Hb; str_simpl.
  - unfold nl. str_simpl. simpl. reflexivity.
  - simpl in Hb. apply andb_true_iff in Hb as [Hc Hb]. apply negb_true_iff in Hc.
    simpl. rewrite Hc. rewrite IH by exact Hb. rewrite append_assoc. reflexivity.
Qed.

(** Reading back the lines that were written. *)
Lemma readlines_join (lines : list string) :
  Forall is_line lines -> Py.readlines (join lines) = lines.
Proof.
  unfold Py.readlines.
  induction 1 as [| l lines (body & -> & Hb) _ IH]; simpl; [reflexivity |].
  rewrite append_assoc, readlines_go_line by exact Hb. rewrite IH. reflexivity.
Qed.

Lemma no_newline_app (a b : string) :
  no_newline (a +:+ b) = no_newline a && no_newline b.
Proof.
  induction a as [| c a IH]; str_simpl; simpl; [reflexivity |].
  rewrite IH. apply andb_assoc.
Qed.

Lemma no_space_no_newline (w : string) : no_space w = true -> no_newline w = true.
Proof.
  induction w as [| c w IH]; simpl; [reflexivity |].
  intros H. apply andb_true_iff in H as [Hc Hw]. rewrite (IH Hw), andb_true_r.
  apply negb_true_iff. apply negb_true_iff in Hc.
  destruct (Ascii.eqb_spec c Py.LF) as [-> | _]; [discriminate Hc | reflexivity].
Qed.

Lemma header_is_line (e : blame_entry) : well_formed e -> is_line (header_of e).
Proof.
  intros (Hs & Ho & Hf & Hg & _).
  apply word_no_space, no_space_no_newline in Hs, Ho, Hf.
  exists (e_sha e +:+ String " " (e_original e +:+ String " " (e_final e +:+
            match e_group e with Some n => String " " n | None => "" end))).
  split.
  - unfold header_of. rewrite !append_assoc. str_simpl. rewrite !append_assoc.
    str_simpl. rewrite append_assoc.
    destruct (e_group e); str_simpl; reflexivity.
  - rewrite no_newline_app, Hs. simpl. rewrite no_newline_app, Ho. simpl.
    rewrite no_newline_app, Hf. simpl.
    destruct (e_group e) as [n |] eqn:E; [| reflexivity].
    simpl. apply no_space_no_newline, word_no_space, Hg. reflexivity.
Qed.

Lemma rendered_are_lines (e : blame_entry) :
  well_formed e -> lines_of_entry e -> Forall is_line (rendered e).
Proof.
  intros Hwf [Hann (body & Hc & Hb)]. unfold rendered.
  constructor; [apply header_is_line, Hwf |].
  apply Forall_app. split; [exact Hann |].
  constructor; [| constructor].
  exists (tab +:+ body). split.
  - rewrite Hc, append_assoc. reflexivity.
  - unfold tab. str_simpl. simpl. exact Hb.
Qed.

(** X9. When [git blame] prints well-formed entries for the current commit
    and no blame of at least one line is cached, [blame] returns one line
    per entry, in order, and caches that list: sha, original line number and
    content are the entry's, the flag says whether the sha is the current
    commit's, and the final line number is the entry's, followed by the
    newline when the header has no group size. *)
Theorem blame_reads_entries (env : Env) (self : GitFileHistory)
    (c : GitCommit.t) (es : list blame_entry) :
  in_bounds self ->
  commits self !! Z.to_nat (_index self) = Some c ->
  (_blame self = None \/ _blame self = Some []) ->
  Forall well_formed es ->
  Forall lines_of_entry es ->
  blame_out env (path self) (GitCommit.sha c) = join (concat (map rendered es)) ->
  blame env self
  = (Ret (map (line_read (GitCommit.sha c)) es,
          set_blame (Some (map (line_read (GitCommit.sha c)) es)) self),
     [git_blame (path self) (GitCommit.sha c)]).
Proof.
  intros Hb Hc Hcache Hwf Hlines Hout.
  destruct (getitem_in_bounds self Hb) as (c' & Hc' & Hcur).
  assert (c' = c) as -> by congruence.
  destruct (blame_uncached_log env self c Hcache Hcur) as [Hlog Hres].
  destruct (blame env self) as [o l]. simpl in Hlog, Hres. subst l. f_equal.
  rewrite Hres, Hout, readlines_join.
  - rewrite blame_loop_rendered by exact Hwf. reflexivity.
  - clear Hout. induction Hwf as [| e es He _ IH]; cbn [map concat]; [constructor |].
    inversion Hlines as [| ? ? Hl Hls]; subst.
    apply Forall_app_2; [apply rendered_are_lines; assumption | apply IH, Hls].
Qed.

Lemma blame_reads_entries_witness :
  blame group_repo (fresh one_commit)
  = (Ret ([GitBlameLine.mk "c0ffee" ("a" +:+ nl) true "1" "1";
           GitBlameLine.mk "c0ffee" ("b" +:+ nl) true "2" ("2" +:+ nl)],
          set_blame
            (Some [GitBlameLine.mk "c0ffee" ("a" +:+ nl) true "1" "1";
                   GitBlameLine.mk "c0ffee" ("b" +:+ nl) true "2" ("2" +:+ nl)])
            (fresh one_commit)),
     [git_blame "f" "c0ffee"]).
Proof.
  apply (blame_reads_entries group_repo (fresh one_commit)
           (GitCommit.mk "c0ffee" "ann" "first")
           [mkEntry "c0ffee" "1" "1" (Some "2") ["author ann" +:+ nl] ("a" +:+ nl);
            mkEntry "c0ffee" "2" "2" None [] ("b" +:+ nl)]).
  - unfold in_bounds; simpl; lia.
  - reflexivity.
  - left; reflexivity.
  - repeat constructor; simpl; intros; try discriminate.
    injection H as <-. reflexivity.
  - repeat constructor.
    + exists "author ann". split; reflexivity.
    + exists "a". split; reflexivity.
    + exists "b". split; reflexivity.
  - reflexivity.
Defined.


(** ** Reading the diff output *)

Lemma digit_of_char (d : nat) : (d < 10)%nat -> Py.digit (digit_char d) = Some (Z.of_nat d).
Proof.
  intros H. do 10 (destruct d as [| d]; [reflexivity |]). lia.
Qed.

Lemma decimal_go_S (fuel n : nat) (acc : string) :
  decimal_go (S fuel) n acc
  = if Nat.eqb (n / 10) 0 then String (digit_char (n mod 10)) acc
    else decimal_go fuel (n / 10) (String (digit_char (n mod 10)) acc).
Proof. reflexivity. Qed.

Lemma digits_cons (a : Z) (c : ascii) (s : string) :
  Py.digits a (String c s)
  = match Py.digit c with Some d => Py.digits (10 * a + d) s | None => None end.
Proof. reflexivity. Qed.

Lemma decimal_go_digits (fuel n : nat) (acc : string) :
  (n < fuel)%nat ->
  Py.digits 0 (decimal_go fuel n acc) = Py.digits (Z.of_nat n) acc.
Proof.
  revert n acc. induction fuel as [| fuel IH]; intros n acc Hn; [lia |].
  rewrite decimal_go_S.
  assert (n mod 10 < 10)%nat as Hmod by (apply Nat.mod_upper_bound; lia).
  pose proof (Nat.div_mod_eq n 10) as Hdm.
  destruct (Nat.eqb_spec (n / 10) 0) as [Hz | Hnz].
  - rewrite digits_cons, (digit_of_char _ Hmod). f_equal. lia.
  - rewrite IH by (assert (n / 10 < n)%nat by (apply Nat.div_lt; lia); lia).
    rewrite digits_cons, (digit_of_char _ Hmod). f_equal. lia.
Qed.

Lemma decimal_go_all_digits (fuel n : nat) (acc : string) :
  all_digits acc = true -> all_digits (decimal_go fuel n acc) = true.
Proof.
  revert n acc. induction fuel as [| fuel IH]; intros n acc Hacc; [exact Hacc |].
  rewrite decimal_go_S.
  assert (n mod 10 < 10)%nat as Hmod by (apply Nat.mod_upper_bound; lia).
  assert (all_digits (String (digit_char (n mod 10)) acc) = true) as H.
  { cbn [all_digits]. rewrite (digit_of_char _ Hmod). exact Hacc. }
  destruct (Nat.eqb (n / 10) 0); [exact H | apply IH, H].
Qed.

Lemma decimal_go_not_empty (fuel n : nat) (acc : string) :
  acc <> "" -> decimal_go fuel n acc <> "".
Proof.
  revert n acc. induction fuel as [| fuel IH]; intros n acc Hacc; [exact Hacc |].
  rewrite decimal_go_S. destruct (Nat.eqb (n / 10) 0); [discriminate |].
  apply IH. discriminate.
Qed.

Lemma decimal_not_empty (n : nat) : decimal n <> "".
Proof.
  unfold decimal. rewrite decimal_go_S.
  destruct (Nat.eqb (n / 10) 0); [discriminate | apply decimal_go_not_empty; discriminate].
Qed.

Lemma digit_not_space (c : ascii) (d : Z) : Py.digit c = Some d -> Py.isspace c = false.
Proof.
  unfold Py.digit, Py.isspace. set (n := nat_of_ascii c).
  destruct (Nat.leb 48 n && Nat.leb n 57) eqn:E; [| discriminate].
  intros _. apply andb_true_iff in E as [E1 E2]. apply Nat.leb_le in E1, E2.
  apply orb_false_iff. split; [apply Nat.eqb_neq; lia |].
  apply andb_false_iff. right. apply Nat.leb_gt. lia.
Qed.

Lemma all_digits_no_space (s : string) : all_digits s = true -> no_space s = true.
Proof.
  induction s as [| c s IH]; simpl; [reflexivity |].
  destruct (Py.digit c) as [d |] eqn:E; [| discriminate].
  intros H. rewrite (digit_not_space c d E), (IH H). reflexivity.
Qed.

Lemma rev_app_append (a b : string) : String.rev_app a b = String.rev a +:+ b.
Proof.
  revert b. induction a as [| c a IH]; intros b; [reflexivity |].
  unfold String.rev. simpl. rewrite IH, (IH (String c "")), append_assoc. reflexivity.
Qed.

Lemma rev_append (a b : string) : String.rev (a +:+ b) = String.rev b +:+ String.rev a.
Proof.
  induction a as [| c a IH]; str_simpl.
  - rewrite append_nil_r. reflexivity.
  - unfold String.rev at 1 3. simpl. rewrite !rev_app_append, IH, append_assoc.
    reflexivity.
Qed.

Lemma rev_rev (a : string) : String.rev (String.rev a) = a.
Proof.
  induction a as [| c a IH]; [reflexivity |].
  unfold String.rev at 2. simpl. rewrite rev_app_append, rev_append, IH. reflexivity.
Qed.

Lemma lstrip_first (c : ascii) (s : string) :
  Py.isspace c = false -> Py.lstrip (String c s) = String c s.
Proof. intros H. simpl. rewrite H. reflexivity. Qed.

Lemma lstrip_space (c : ascii) (s : string) :
  Py.isspace c = true -> Py.lstrip (String c s) = Py.lstrip s.
Proof. intros H. simpl. rewrite H. reflexivity. Qed.

(** A text that starts and ends on characters that are not white space
    loses exactly its final newline to [strip]. *)
Lemma strip_final_newline (c d : ascii) (s : string) :
  Py.isspace c = false -> Py.isspace d = false ->
  Py.strip (String c s +:+ String d "" +:+ nl) = String c s +:+ String d "".
Proof.
  intros Hc Hd. unfold Py.strip, Py.rstrip.
  replace (Py.lstrip (String c s +:+ String d "" +:+ nl))
    with (String c s +:+ String d "" +:+ nl)
    by (symmetry; apply (lstrip_first c (s +:+ String d "" +:+ nl) Hc)).
  rewrite rev_append, rev_append.
  replace (String.rev nl) with nl by reflexivity.
  replace (String.rev (String d "")) with (String d "") by reflexivity.
  replace ((nl +:+ String d "") +:+ String.rev (String c s))
    with (String Py.LF (String d (String.rev (String c s)))) by reflexivity.
  rewrite lstrip_space by reflexivity.
  rewrite lstrip_first by exact Hd.
  replace (String d (String.rev (String c s)))
    with (String d "" +:+ String.rev (String c s)) by reflexivity.
  rewrite rev_append, rev_rev. reflexivity.
Qed.

Lemma no_space_strip (w : string) : no_space w = true -> w <> "" -> Py.strip w = w.
Proof.
  intros Hw Hne. unfold Py.strip, Py.rstrip.
  assert (Py.lstrip w = w) as ->.
  { destruct w as [| c w]; [reflexivity |]. simpl in Hw.
    apply andb_true_iff in Hw as [Hc _]. apply negb_true_iff in Hc.
    apply lstrip_first, Hc. }
  assert (forall a b, no_space a = true -> no_space b = true ->
                      no_space (String.rev_app a b) = true) as Hrev.
  { induction a as [| c a IH]; intros b Ha Hb; [exact Hb |].
    simpl in *. apply andb_true_iff in Ha as [Hc Ha]. apply IH; [exact Ha |].
    simpl. rewrite Hc, Hb. reflexivity. }
  assert (no_space (String.rev w) = true) as Hr by (apply Hrev; auto).
  assert (Py.lstrip (String.rev w) = String.rev w) as ->.
  { destruct (String.rev w) as [| c r]; [reflexivity |]. simpl in Hr.
    apply andb_true_iff in Hr as [Hc _]. apply negb_true_iff in Hc.
    apply lstrip_first, Hc. }
  apply rev_rev.
Qed.

Lemma int_decimal (n : nat) : Py.int (decimal n) = Some (Z.of_nat n).
Proof.
  pose proof (decimal_go_all_digits (S n) n "" eq_refl) as Hd. fold (decimal n) in Hd.
  pose proof (decimal_not_empty n) as Hne.
  unfold Py.int. rewrite (no_space_strip _ (all_digits_no_space _ Hd) Hne).
  assert (Py.unsigned (decimal n) = Some (Z.of_nat n)) as Hu.
  { unfold Py.unsigned. destruct (decimal n) eqn:E; [congruence |]. rewrite <- E.
    unfold decimal. rewrite decimal_go_digits by lia. reflexivity. }
  destruct (decimal n) as [| c s] eqn:E; [congruence |].
  simpl in Hd. destruct (Py.digit c) as [d |] eqn:Ed; [| discriminate].
  destruct (Ascii.eqb_spec c "-") as [-> | Hm]; [discriminate Ed |].
  destruct (Ascii.eqb_spec c "+") as [-> | Hp]; [discriminate Ed |].
  destruct c as [[] [] [] [] [] [] [] []]; try exact Hu; congruence.
Qed.


Lemma split_nl_plain (w cur rest : string) :
  no_newline w = true ->
  Py.split_go nl None 0 cur (w +:+ nl +:+ rest)
  = (cur +:+ w) :: Py.split_go nl None 0 "" rest.
Proof.
  revert cur. induction w as [| c w IH]; intros cur Hw; str_simpl.
  - rewrite append_nil_r. unfold nl. str_simpl. rewrite split_go_none.
    rewrite prefix_cons, Ascii.eqb_refl, prefix_nil. reflexivity.
  - simpl in Hw. apply andb_true_iff in Hw as [Hc Hw].
    rewrite split_go_none. unfold nl at 1.
    rewrite prefix_cons, (eqb_LF_false c Hc).
    rewrite IH by exact Hw. rewrite append_assoc. reflexivity.
Qed.

Lemma split_nl_last (w cur : string) :
  no_newline w = true -> Py.split_go nl None 0 cur w = [cur +:+ w].
Proof.
  revert cur. induction w as [| c w IH]; intros cur Hw.
  - rewrite append_nil_r. reflexivity.
  - simpl in Hw. apply andb_true_iff in Hw as [Hc Hw].
    rewrite split_go_none. unfold nl at 1.
    rewrite prefix_cons, (eqb_LF_false c Hc).
    rewrite IH by exact Hw. rewrite append_assoc. reflexivity.
Qed.

Lemma split_space_last (w cur : string) :
  no_space w = true -> Py.split_go " " None 0 cur w = [cur +:+ w].
Proof.
  revert cur. induction w as [| c w IH]; intros cur Hw.
  - rewrite append_nil_r. reflexivity.
  - simpl in Hw. apply andb_true_iff in Hw as [Hc Hw].
    apply negb_true_iff, not_space_not_blank in Hc.
    rewrite split_go_step, Hc, IH by exact Hw.
    rewrite append_assoc. reflexivity.
Qed.

Lemma length_append (a b : string) :
  String.length (a +:+ b) = (String.length a + String.length b)%nat.
Proof. induction a as [| c a IH]; str_simpl; simpl; [reflexivity | rewrite IH; reflexivity]. Qed.

Lemma decimal_no_space (n : nat) : no_space (decimal n) = true.
Proof. apply all_digits_no_space, decimal_go_all_digits. reflexivity. Qed.

Lemma parse_group_line (g : string * nat) :
  word (fst g) = true ->
  parse_group (group_line g) = Ret (fst g, Z.of_nat (snd g)).
Proof.
  intros Hw. unfold parse_group, group_line.
  assert (Nat.ltb (String.length (fst g +:+ " " +:+ decimal (snd g))) 3 = false) as ->.
  { apply Nat.ltb_ge. rewrite !length_append. simpl.
    pose proof (word_not_empty _ Hw) as H1. pose proof (decimal_not_empty (snd g)) as H2.
    destruct (fst g); [discriminate H1 |]. destruct (decimal (snd g)); [congruence |].
    simpl. lia. }
  unfold Py.split.
  replace (fst g +:+ " " +:+ decimal (snd g))
    with (fst g +:+ String " " (decimal (snd g))) by reflexivity.
  rewrite split_go_word by (apply word_no_space, Hw).
  rewrite split_space_last by apply decimal_no_space.
  rewrite !append_nil_l, int_decimal. reflexivity.
Qed.

Lemma group_line_no_newline (g : string * nat) :
  word (fst g) = true -> no_newline (group_line g) = true.
Proof.
  intros Hw. unfold group_line. rewrite !no_newline_app.
  rewrite (no_space_no_newline _ (word_no_space _ Hw)).
  rewrite (no_space_no_newline _ (decimal_no_space (snd g))). reflexivity.
Qed.

Lemma diff_text_body (g : string * nat) (gs : list (string * nat)) :
  diff_text (g :: gs) = text_body g gs +:+ nl.
Proof.
  revert g. induction gs as [| g' gs IH]; intros g.
  - change (diff_text [g]) with (group_text g "").
    unfold group_text, text_body, group_line.
    rewrite append_nil_r, !append_assoc. reflexivity.
  - change (diff_text (g :: g' :: gs)) with (group_text g (diff_text (g' :: gs))).
    rewrite IH. simpl text_body. unfold group_text, group_line.
    rewrite !append_assoc. reflexivity.
Qed.

Lemma split_text_body (g : string * nat) (gs : list (string * nat)) (cur : string) :
  Forall (fun g => word (fst g) = true) (g :: gs) ->
  Py.split_go nl None 0 cur (text_body g gs)
  = (cur +:+ group_line g) :: map group_line gs.
Proof.
  revert g cur. induction gs as [| g' gs IH]; intros g cur Hall;
    inversion Hall as [| ? ? Hg Hgs]; subst; simpl text_body.
  - apply split_nl_last, group_line_no_newline, Hg.
  - rewrite split_nl_plain by (apply group_line_no_newline, Hg).
    rewrite IH by exact Hgs. rewrite append_nil_l. reflexivity.
Qed.

Lemma last_char (s : string) :
  s <> "" -> exists (s' : string) (d : ascii), s = s' +:+ String d "".
Proof.
  induction s as [| c s IH]; [congruence |]. intros _.
  destruct s as [| c' s].
  - exists "", c. reflexivity.
  - destruct IH as (s' & d & E); [discriminate |].
    exists (String c s'), d. rewrite E. reflexivity.
Qed.

Lemma no_space_last (s : string) (d : ascii) :
  no_space (s +:+ String d "") = true -> Py.isspace d = false.
Proof.
  induction s as [| c s IH]; str_simpl; simpl; intros H;
    apply andb_true_iff in H as [H1 H2].
  - apply negb_true_iff, H1.
  - apply IH, H2.
Qed.

Lemma text_body_ends (g : string * nat) (gs : list (string * nat)) :
  exists (s : string) (d : ascii),
    text_body g gs = s +:+ String d "" /\ Py.isspace d = false.
Proof.
  revert g. induction gs as [| g' gs IH]; intros g; simpl text_body.
  - destruct (last_char _ (decimal_not_empty (snd g))) as (s' & d & E).
    exists (fst g +:+ " " +:+ s'), d. split.
    + unfold group_line. rewrite E, !append_assoc. reflexivity.
    + apply (no_space_last s'). rewrite <- E. apply decimal_no_space.
  - destruct (IH g') as (s & d & E & Hd).
    exists (group_line g +:+ nl +:+ s), d. split; [| exact Hd].
    rewrite E, !append_assoc. reflexivity.
Qed.

Lemma text_body_starts (g : string * nat) (gs : list (string * nat)) :
  word (fst g) = true ->
  exists (c : ascii) (s : string),
    text_body g gs = String c s /\ Py.isspace c = false.
Proof.
  intros Hw. pose proof (word_not_empty _ Hw) as Hne.
  pose proof (word_no_space _ Hw) as Hns.
  destruct (fst g) as [| c t] eqn:E; [discriminate Hne |].
  simpl in Hns. apply andb_true_iff in Hns as [Hc _]. apply negb_true_iff in Hc.
  destruct gs as [| g' gs]; simpl text_body; unfold group_line; rewrite E; str_simpl;
    eauto.
Qed.

Lemma strip_diff_text (g : string * nat) (gs : list (string * nat)) :
  word (fst g) = true ->
  Py.strip (diff_text (g :: gs)) = text_body g gs.
Proof.
  intros Hw. rewrite diff_text_body.
  destruct (text_body_starts g gs Hw) as (c & s & Es & Hc).
  destruct (text_body_ends g gs) as (t & d & Et & Hd).
  destruct t as [| c' t'].
  - rewrite Et in *. str_simpl. str_simpl_in Es. injection Es as -> <-.
    unfold Py.strip, Py.rstrip.
    replace (Py.lstrip (String c "" +:+ nl)) with (String c "" +:+ nl)
      by (symmetry; apply (lstrip_first c nl Hc)).
    replace (String.rev (String c "" +:+ nl)) with (String Py.LF (String c ""))
      by reflexivity.
    rewrite lstrip_space by reflexivity. rewrite lstrip_first by exact Hc.
    reflexivity.
  - rewrite Et in *. str_simpl_in Es. injection Es as -> _.
    rewrite append_assoc. apply strip_final_newline; assumption.
Qed.

Lemma parse_group_lines (gs : list (string * nat)) :
  Forall (fun g => word (fst g) = true) gs ->
  parse_groups (map group_line gs)
  = Ret (map (fun g => (fst g, Z.of_nat (snd g))) gs).
Proof.
  induction 1 as [| g gs Hg _ IH]; simpl; [reflexivity |].
  rewrite parse_group_line by exact Hg. simpl. rewrite IH. reflexivity.
Qed.

Lemma diff_text_parses (groups : list (string * nat)) :
  Forall (fun g => word (fst g) = true) groups ->
  parse_groups (diff_lines_of (diff_text groups))
  = Ret (map (fun g => (fst g, Z.of_nat (snd g))) groups).
Proof.
  intros Hall. destruct groups as [| g gs]; [reflexivity |].
  inversion Hall as [| ? ? Hg Hgs]; subst.
  unfold diff_lines_of.
  assert (String.eqb (diff_text (g :: gs)) "" = false) as ->.
  { rewrite diff_text_body. unfold nl. apply append_not_empty. }
  rewrite strip_diff_text by exact Hg.
  unfold Py.split. change (String Py.LF "") with nl.
  rewrite split_text_body by exact Hall. rewrite append_nil_l.
  apply (parse_group_lines (g :: gs) Hall).
Qed.

(** X16. The text that the three group formats print for a list of groups
    is read back as that list, and the computation on it returns: it is what
    [stretch] leaves of the cursors the groups produce. *)
Theorem printed_diff_is_read_back (env : Env) (start finish : string)
    (self : GitFileHistory) (groups : list (string * nat)) :
  Forall (fun g => word (fst g) = true) groups ->
  diff_out env (show_out env start (path self)) (show_out env finish (path self))
  = (diff_text groups, "") ->
  let read := map (fun g => (fst g, Z.of_nat (snd g))) groups in
  let c := stretch (Z.of_nat (length (Py.readlines (show_out env start (path self)))))
                   (Z.of_nat (length (Py.readlines (show_out env finish (path self)))))
                   (groups_loop read cursors0) in
  parse_groups (diff_lines_of (diff_text groups)) = Ret read
  /\ _build_line_mappings env start finish self
     = (Ret (forward c, backward c), one_pass start finish (path self)).
Proof.
  intros Hall Hd read c. pose proof (diff_text_parses groups Hall) as Hp.
  split; [exact Hp |].
  unfold _build_line_mappings. rewrite Hd. simpl.
  rewrite (diff_loop_parsed _ _ _ Hp). reflexivity.
Qed.

Lemma printed_diff_is_read_back_witness :
  parse_groups (diff_lines_of (diff_text [("u", 12%nat); ("o", 3%nat); ("n", 100%nat)]))
  = Ret [("u", 12); ("o", 3); ("n", 100)]
  /\ exists f b : linemap,
       _build_line_mappings
         (repo "" "" (fun _ => "")
               (fun _ _ => diff_text [("u", 12%nat); ("o", 3%nat); ("n", 100%nat)]))
         "A" "B" (fresh one_commit)
       = (Ret (f, b), one_pass "A" "B" "f").
Proof.
  destruct (printed_diff_is_read_back
              (repo "" "" (fun _ => "")
                    (fun _ _ => diff_text [("u", 12%nat); ("o", 3%nat); ("n", 100%nat)]))
              "A" "B" (fresh one_commit)
              [("u", 12%nat); ("o", 3%nat); ("n", 100%nat)]) as [H1 H2].
  - repeat constructor.
  - reflexivity.
  - split; [exact H1 |]. eexists _, _. exact H2.
Defined.
